(** * Llama3Generator: prompt assembly and the event stream of generate_stream

    A shallow embedding of
    [goldenverba/components/generation/Llama3Generator.py].

    The Python class has two methods.  [prepare_messages] builds a fresh list
    of role/content dictionaries; [generate_stream] is an asynchronous
    generator that reads two environment variables, constructs a Hugging Face
    text-generation pipeline, calls it once and yields the answer.

    Python objects that can be mutated (lists, dicts) live in a store indexed
    by locations, so that aliasing and in-place updates are visible.  The
    generator is a tree of effects (yield, call into the transformers
    library, read or write the store, raise); running the tree against an
    oracle for the library gives the trace the caller observes. *)

From Stdlib Require Import QArith.
From stdpp Require Import gmap strings list fin_maps.

Local Open Scope string_scope.
Local Open Scope list_scope.
Local Open Scope Z_scope.

(** ** Python values and the store *)

(** A reference to a mutable Python object. *)
Definition loc := positive.

(** The immutable values that occur as list elements.  [VMessage] is a
    conversation item: an object with attributes [type] and [content].
    [VDict] is a dictionary literal with the two keys "role" and "content". *)
Inductive pyval : Type :=
| VStr (s : string)
| VMessage (type content : string)
| VDict (role content : string).

(** The mutable containers.  [ODict] keeps its items in insertion order, as
    Python dicts do. *)
Inductive pyobj : Type :=
| OList (items : list pyval)
| ODict (items : list (pyval * pyval)).

(** Exceptions: the class name, whether the class derives from
    [Exception] (as opposed to deriving from [BaseException] only), and
    whether it is [StopIteration] or [StopAsyncIteration] or derives from
    one of them. *)
Record exn : Type := Exn {
  exn_class : string;
  exn_is_Exception : bool;
  exn_is_StopIteration : bool
}.

Definition result (A : Type) : Type := exn + A.

Definition TypeError : exn := Exn "TypeError" true false.
Definition AttributeError : exn := Exn "AttributeError" true false.
Definition IndexError : exn := Exn "IndexError" true false.
Definition RuntimeError : exn := Exn "RuntimeError" true false.
Definition StopIteration : exn := Exn "StopIteration" true true.
Definition StopAsyncIteration : exn := Exn "StopAsyncIteration" true true.
(** A reference to nothing does not exist in Python; the case keeps [load]
    total over arbitrary stores. *)
Definition SystemError : exn := Exn "SystemError" true false.

(** ** The generator object *)

(** The fields [__init__] sets, and [system_message], which the base class
    [Generator] (not part of this file) sets and [prepare_messages] reads. *)
Record Llama3Generator : Type := {
  name : string;
  description : string;
  requires_env : list string;
  streamable : bool;
  context_window : Z;
  system_message : string
}.

(** [__init__]: the base class has run and left [base_system_message]. *)
Definition init (base_system_message : string) : Llama3Generator := {|
  name := "Llama3";
  description := "Generator using a local running Llama3 Model from Hugging Face";
  requires_env := ["HUGGINGFACE_TOKEN"; "LLAMA3_MODEL_ID"];
  streamable := true;
  context_window := 8000;
  system_message := base_system_message
|}.

(** Everything a call can read or change: the receiver, the process
    environment, and the objects in the store. *)
Record state : Type := State {
  self : Llama3Generator;
  environ : gmap string string;
  heap : gmap loc pyobj
}.

(** ** Events and calls into the transformers library *)

Record GenerationEvent : Type := Event {
  message : string;
  finish_reason : string
}.

(** Objects owned by the library are opaque: only their identity is known. *)
Inductive handle : Type := Handle (id : positive).

(** One generation of the pipeline's output: a dictionary whose key
    "generated_text" holds the chat with the reply appended. *)
Record generation : Type := { generated_text : list pyval }.

(** The calls made by [generate_stream], with their arguments. *)
Inductive backend_call : Type :=
| BitsAndBytesConfig (load_in_4bit : bool) (bnb_4bit_quant_type : string)
    (bnb_4bit_use_double_quant : bool) (bnb_4bit_compute_dtype : string)
| AutoTokenizer_from_pretrained (model_name token : string)
| AutoModelForCausalLM_from_pretrained (model_name token : string)
    (quantization_config : handle)
| pipeline (task : string) (model tokenizer : handle) (torch_dtype : string)
| tokenizer_eos_token_id (pipe : handle)
| tokenizer_convert_tokens_to_ids (pipe : handle) (token : string)
| pipe_call (pipe : handle) (messages : list pyval) (max_new_tokens : Z)
    (eos_token_id : list Z) (do_sample : bool) (temperature top_p : Q).

Definition ret_ty (c : backend_call) : Type :=
  match c with
  | BitsAndBytesConfig _ _ _ _ => handle
  | AutoTokenizer_from_pretrained _ _ => handle
  | AutoModelForCausalLM_from_pretrained _ _ _ => handle
  | pipeline _ _ _ _ => handle
  | tokenizer_eos_token_id _ => Z
  | tokenizer_convert_tokens_to_ids _ _ => Z
  | pipe_call _ _ _ _ _ _ _ => list generation
  end.

(** The library as the generator sees it: each call returns or raises. *)
Definition backend : Type := ∀ c : backend_call, result (ret_ty c).

(** ** Effect trees *)

(** A computation that ends with a value of type [R] or with an exception,
    and on the way yields events, calls the library and accesses the state.
    [Yield ev k] is the generator suspended at a [yield]: [k] is what runs
    when the caller resumes it. *)
Inductive gen (R : Type) : Type :=
| Ret (r : R)
| Raise (e : exn)
| Yield (ev : GenerationEvent) (k : gen R)
| Call (c : backend_call) (k : result (ret_ty c) → gen R)
| Get (k : state → gen R)
| Put (s : state) (k : gen R).

Arguments Ret {R} r.
Arguments Raise {R} e.
Arguments Yield {R} ev k.
Arguments Call {R} c k.
Arguments Get {R} k.
Arguments Put {R} s k.

Fixpoint bind {A B : Type} (m : gen A) (f : A → gen B) : gen B :=
  match m with
  | Ret a => f a
  | Raise e => Raise e
  | Yield ev k => Yield ev (bind k f)
  | Call c k => Call c (λ r, bind (k r) f)
  | Get k => Get (λ s, bind (k s) f)
  | Put s k => Put s (bind k f)
  end.

Notation "'let!' x ':=' m 'in' k" := (bind m (λ x, k))
  (at level 10, x name, m at level 100, k at level 200).
Notation "m ';;;' k" := (bind m (λ _, k))
  (at level 100, k at level 200, right associativity).

(** [try: body except cls: handler]: [catches] says which exceptions the
    clause matches. *)
Fixpoint try_except {R : Type} (body : gen R) (catches : exn → bool)
    (handler : exn → gen R) : gen R :=
  match body with
  | Ret r => Ret r
  | Raise e => if catches e then handler e else Raise e
  | Yield ev k => Yield ev (try_except k catches handler)
  | Call c k => Call c (λ r, try_except (k r) catches handler)
  | Get k => Get (λ s, try_except (k s) catches handler)
  | Put s k => Put s (try_except k catches handler)
  end.

Definition yield (ev : GenerationEvent) : gen unit := Yield ev (Ret tt).

(** A call whose exception, if any, is raised at the call site. *)
Definition call (c : backend_call) : gen (ret_ty c) :=
  Call c (λ r, match r with inl e => Raise e | inr x => Ret x end).

Definition lift_result {A : Type} (r : result A) : gen A :=
  match r with inl e => Raise e | inr x => Ret x end.

Definition get_state : gen state := Get (λ s, Ret s).

(** ** Store operations *)

(** A location no object of [h] occupies. *)
Definition fresh_loc (h : gmap loc pyobj) : loc := fresh (dom h).

Definition alloc (o : pyobj) : gen loc :=
  Get (λ s,
    let l := fresh_loc (heap s) in
    Put (State (self s) (environ s) (<[l := o]> (heap s))) (Ret l)).

Definition load (l : loc) : gen pyobj :=
  Get (λ s,
    match heap s !! l with
    | Some o => Ret o
    | None => Raise SystemError
    end).

(** [lst.append(v)]: in-place update of the list at [l]; a dict has no
    [append]. *)
Definition list_append (l : loc) (v : pyval) : gen unit :=
  Get (λ s,
    match heap s !! l with
    | Some (OList items) =>
        Put (State (self s) (environ s) (<[l := OList (items ++ [v])]> (heap s)))
            (Ret tt)
    | Some (ODict _) => Raise AttributeError
    | None => Raise SystemError
    end).

(** What iterating over an object produces: the items of a list, the keys of
    a dict. *)
Definition py_iter (o : pyobj) : list pyval :=
  match o with
  | OList items => items
  | ODict items => fst <$> items
  end.

(** [os.environ.get(key, default)]. *)
Definition os_environ_get (key dflt : string) : gen string :=
  Get (λ s, Ret (default dflt (environ s !! key))).

(** ** String helpers *)

(** [sep.join(xs)] for a list of strings. *)
Fixpoint join (sep : string) (xs : list string) : string :=
  match xs with
  | [] => ""
  | x :: rest =>
      match rest with
      | [] => x
      | _ :: _ => x +:+ sep +:+ join sep rest
      end
  end.

Definition as_str (v : pyval) : option string :=
  match v with
  | VStr s => Some s
  | _ => None
  end.

(** [sep.join(iterable)]: a [TypeError] unless every item is a [str]. *)
Definition str_join (sep : string) (items : list pyval) : gen string :=
  match mapM as_str items with
  | Some xs => Ret (join sep xs)
  | None => Raise TypeError
  end.

(** [v.type] and [v.content]: only conversation items have the attributes. *)
Definition getattr_type (v : pyval) : gen string :=
  match v with
  | VMessage ty _ => Ret ty
  | _ => Raise AttributeError
  end.

Definition getattr_content (v : pyval) : gen string :=
  match v with
  | VMessage _ c => Ret c
  | _ => Raise AttributeError
  end.

(** [v["content"]]: only a dict can be indexed by a string. *)
Definition subscript_content (v : pyval) : result string :=
  match v with
  | VDict _ c => inr c
  | _ => inl TypeError
  end.

(** [for v in items: body(v)]. *)
Fixpoint for_each (items : list pyval) (body : pyval → gen unit) : gen unit :=
  match items with
  | [] => Ret tt
  | v :: rest => body v ;;; for_each rest body
  end.

(** ** prepare_messages *)

(** The f-string of the final user message. *)
Definition user_prompt (user_context query : string) : string :=
  "With this provided context: '" +:+ user_context +:+
  "' Please answer this query: '" +:+ query +:+ "'".

(** The three arguments are references to the caller's objects; the result
    is a reference to the list built here.  The loop iterates over the items
    the conversation holds when the loop starts: its body only appends to
    [messages], which is a different object. *)
Definition prepare_messages (queries context conversation : loc) : gen loc :=
  let! s := get_state in
  let! messages := alloc (OList [VDict "system" (system_message (self s))]) in
  let! conv := load conversation in
  for_each (py_iter conv) (λ message,
    let! ty := getattr_type message in
    let! c := getattr_content message in
    list_append messages (VDict ty c)) ;;;
  let! qs := load queries in
  let! query := str_join " " (py_iter qs) in
  let! cs := load context in
  let! user_context := str_join " " (py_iter cs) in
  list_append messages (VDict "user" (user_prompt user_context query)) ;;;
  Ret messages.

(** ** generate_stream *)

Definition missing_token_event : GenerationEvent :=
  Event "Missing Hugging Face Token" "stop".

Definition missing_model_event : GenerationEvent :=
  Event "Missing Llama3 Model" "stop".

(** [outputs[0]["generated_text"][-1]["content"]]. *)
Definition assistant_response_of (outputs : list generation) : result string :=
  match outputs with
  | [] => inl IndexError
  | g :: _ =>
      match last (generated_text g) with
      | None => inl IndexError
      | Some v => subscript_content v
      end
  end.

(** The body of the asynchronous generator.  [conversation] is [None] when
    the caller leaves the argument out.  The [pipe] call receives the items
    of the [messages] list as they are when the call is made. *)
Definition generate_stream (queries context : loc) (conversation : option loc)
    : gen unit :=
  let! access_token := os_environ_get "HUGGINGFACE_TOKEN" "" in
  (if decide (access_token = "") then yield missing_token_event else Ret tt) ;;;
  let! model_name := os_environ_get "LLAMA3_MODEL_ID" "" in
  (if decide (model_name = "") then yield missing_model_event else Ret tt) ;;;
  let! bnb_config := call (BitsAndBytesConfig true "nf4" true "bfloat16") in
  let! tokenizer := call (AutoTokenizer_from_pretrained model_name access_token) in
  let! model :=
    call (AutoModelForCausalLM_from_pretrained model_name access_token bnb_config) in
  let! pipe := call (pipeline "text-generation" model tokenizer "float16") in
  let! eos := call (tokenizer_eos_token_id pipe) in
  let! eot := call (tokenizer_convert_tokens_to_ids pipe "<|eot_id|>") in
  let terminators := [eos; eot] in
  let! conversation :=
    match conversation with
    | None => alloc (ODict [])
    | Some l => Ret l
    end in
  let! messages := prepare_messages queries context conversation in
  try_except
    (let! msgs := load messages in
     let! outputs :=
       call (pipe_call pipe (py_iter msgs) 256 terminators true (6 # 10) (9 # 10)) in
     let! assistant_response := lift_result (assistant_response_of outputs) in
     yield (Event assistant_response ""))
    exn_is_Exception
    (λ e, Raise e).

(** ** Running a computation *)

(** What the caller and the library observe, in order. *)
Inductive action : Type :=
| AYield (ev : GenerationEvent)
| ACall (c : backend_call).

Record run_result (R : Type) : Type := Run {
  trace : list action;
  final : state;
  outcome : result R
}.

Arguments Run {R} trace final outcome.
Arguments trace {R} r.
Arguments final {R} r.
Arguments outcome {R} r.

(** Drive a body to its end: the caller resumes the generator after every
    event, the library answers as [b] says. The outcome is the value the
    body returns or the exception that leaves the body; for the body of a
    plain method this is what the caller receives, for the body of an
    asynchronous generator see [run_agen]. *)
Fixpoint run {R : Type} (b : backend) (p : gen R) (s : state) : run_result R :=
  match p with
  | Ret r => Run [] s (inr r)
  | Raise e => Run [] s (inl e)
  | Yield ev k =>
      let r := run b k s in Run (AYield ev :: trace r) (final r) (outcome r)
  | Call c k =>
      let r := run b (k (b c)) s in Run (ACall c :: trace r) (final r) (outcome r)
  | Get k => run b (k s) s
  | Put s' k => run b k s'
  end.

(** The exception the caller of an asynchronous generator receives when
    [e] leaves the body: Python replaces a [StopIteration] or a
    [StopAsyncIteration] that escapes the body with a [RuntimeError], and
    hands every other exception over as it is. *)
Definition delivered (e : exn) : exn :=
  if exn_is_StopIteration e then RuntimeError else e.

Definition agen_outcome {R : Type} (o : result R) : result R :=
  match o with
  | inl e => inl (delivered e)
  | inr r => inr r
  end.

(** The run of an asynchronous generator as its caller observes it: the
    actions and the final state of the body, and the outcome as the
    generator protocol delivers it. *)
Definition run_agen {R : Type} (b : backend) (p : gen R) (s : state)
    : run_result R :=
  let r := run b p s in Run (trace r) (final r) (agen_outcome (outcome r)).

(** The events of a trace, in the order the caller receives them. *)
Definition events (t : list action) : list GenerationEvent :=
  omap (λ a, match a with AYield ev => Some ev | ACall _ => None end) t.

(** ** Resuming the generator *)

(** Where a resumption of the generator stops: at a [yield], with the rest
    of the body suspended; at the end of the body ([StopAsyncIteration]);
    or at an exception [e] that leaves the body, which reaches the caller
    as [delivered e]. *)
Inductive suspension (R : Type) : Type :=
| Yielded (ev : GenerationEvent) (k : gen R) (s : state)
| Returned (r : R) (s : state)
| Raised (e : exn) (s : state).

Arguments Yielded {R} ev k s.
Arguments Returned {R} r s.
Arguments Raised {R} e s.

(** [__anext__]: run the body up to its next [yield]. The result is the
    calls made into the library on the way, and where the body stopped. *)
Fixpoint anext {R : Type} (b : backend) (p : gen R) (s : state)
    : list backend_call * suspension R :=
  match p with
  | Ret r => ([], Returned r s)
  | Raise e => ([], Raised e s)
  | Yield ev k => ([], Yielded ev k s)
  | Call c k => let '(cs, st) := anext b (k (b c)) s in (c :: cs, st)
  | Get k => anext b (k s) s
  | Put s' k => anext b k s'
  end.

(** * Specification vocabulary *)

(** ** Arguments of the declared shapes *)

(** A conversation item as the caller supplies it. *)
Record ConversationItem : Type := Item {
  item_type : string;
  item_content : string
}.

(** The item as a Python object with attributes [type] and [content]. *)
Definition item_val (m : ConversationItem) : pyval :=
  VMessage (item_type m) (item_content m).

(** The dictionary [{"role": m.type, "content": m.content}]. *)
Definition item_dict (m : ConversationItem) : pyval :=
  VDict (item_type m) (item_content m).

(** [l] refers to an iterable of the strings [xs]. *)
Definition strs_at (s : state) (l : loc) (xs : list string) : Prop :=
  ∃ o, heap s !! l = Some o ∧ py_iter o = VStr <$> xs.

(** [l] refers to an iterable of the conversation items [cv]. *)
Definition conv_at (s : state) (l : loc) (cv : list ConversationItem) : Prop :=
  ∃ o, heap s !! l = Some o ∧ py_iter o = item_val <$> cv.

(** The message sequence of the specification (section 4.2): one system
    message with the preamble, the conversation passed through in order,
    and one user message with the template around the joined context and
    the joined queries. *)
Definition assembled (sys : string) (cv : list ConversationItem)
    (cx qs : list string) : list pyval :=
  VDict "system" sys :: (item_dict <$> cv) ++
  [VDict "user" (user_prompt (join " " cx) (join " " qs))].

(** The value under "role", and under "content", of a message. *)
Definition role_of (v : pyval) : option string :=
  match v with
  | VDict r _ => Some r
  | _ => None
  end.

Definition content_of (v : pyval) : option string :=
  match v with
  | VDict _ c => Some c
  | _ => None
  end.

(** The conversation argument of [generate_stream]: a reference to the
    items [cv], or [None], for which the generator allocates an empty
    dict. *)
Definition conv_arg (s : state) (conversation : option loc)
    (cv : list ConversationItem) : Prop :=
  match conversation with
  | Some l => conv_at s l cv
  | None => cv = []
  end.

(** The joined text of the specification (section 4.2, step 3): the
    strings in their order with one space between each two neighbours, and
    the empty string for the empty sequence. It is written without [join],
    the function the code calls, so that the two can be compared. *)
Definition joined_with_spaces (xs : list string) : string :=
  match xs with
  | [] => ""
  | x :: rest => x +:+ foldr (λ y acc, " " +:+ y +:+ acc) "" rest
  end.

(** ** Runs and frames *)

Definition with_heap (s : state) (h : gmap loc pyobj) : state :=
  State (self s) (environ s) h.

(** A computation that returns [a] in state [s'] without yielding or
    calling. *)
Definition returns {A} (b : backend) (m : gen A) (s s' : state) (a : A) : Prop :=
  run b m s = Run [] s' (inr a).

(** [s'] has the receiver and the environment of [s], and every object of
    [s] is in [s'] with the same contents. *)
Definition preserves (s s' : state) : Prop :=
  self s' = self s ∧ environ s' = environ s ∧ heap s ⊆ heap s'.

(** A computation that neither yields nor calls, that keeps the objects of
    [s0] as they are whenever it starts in a state that has kept them, and
    whose value, if it returns one, satisfies [Q]. *)
Definition quiet {A} (b : backend) (s0 : state) (m : gen A) (Q : A → Prop)
    : Prop :=
  ∀ s, preserves s0 s →
    trace (run b m s) = [] ∧ preserves s0 (final (run b m s)) ∧
    ∀ a, outcome (run b m s) = inr a → Q a.

(** The postcondition that asks nothing of the value. *)
Definition any {A} : A → Prop := λ _, True.

(** ** Configuration *)

(** The two values [generate_stream] reads from the environment. *)
Definition access_token_of (s : state) : string :=
  default "" (environ s !! "HUGGINGFACE_TOKEN").

Definition model_name_of (s : state) : string :=
  default "" (environ s !! "LLAMA3_MODEL_ID").

(** A required key is absent from the environment, or set to the empty
    string. *)
Definition unset (s : state) (key : string) : Prop :=
  environ s !! key = None ∨ environ s !! key = Some "".

(** The events the two configuration checks yield, in order. *)
Definition config_events (s : state) : list GenerationEvent :=
  (if decide (access_token_of s = "") then [missing_token_event] else []) ++
  (if decide (model_name_of s = "") then [missing_model_event] else []).

(** A terminal event. *)
Definition is_stop (ev : GenerationEvent) : Prop := finish_reason ev = "stop".

Global Instance is_stop_dec ev : Decision (is_stop ev).
Proof. unfold is_stop. apply _. Defined.

(** ** The calls and the runs of the backend part *)

(** The calls of the construction phase, as [generate_stream] makes them. *)
Definition c_config : backend_call :=
  BitsAndBytesConfig true "nf4" true "bfloat16".
Definition c_tokenizer (s : state) : backend_call :=
  AutoTokenizer_from_pretrained (model_name_of s) (access_token_of s).
Definition c_model (s : state) (cfg : handle) : backend_call :=
  AutoModelForCausalLM_from_pretrained (model_name_of s) (access_token_of s) cfg.
Definition c_pipeline (m tk : handle) : backend_call :=
  pipeline "text-generation" m tk "float16".
Definition c_eos (p : handle) : backend_call := tokenizer_eos_token_id p.
Definition c_eot (p : handle) : backend_call :=
  tokenizer_convert_tokens_to_ids p "<|eot_id|>".
Definition c_pipe (p : handle) (msgs : list pyval) (eos eot : Z) : backend_call :=
  pipe_call p msgs 256 [eos; eot] true (6 # 10) (9 # 10).

(** The library builds a pipeline [p] with terminators [eos] and [eot] for
    the configuration of [s]. *)
Definition constructs (b : backend) (s : state) (p : handle) (eos eot : Z)
    (cs : list backend_call) : Prop :=
  ∃ cfg tk m,
    b c_config = inr cfg ∧
    b (c_tokenizer s) = inr tk ∧
    b (c_model s cfg) = inr m ∧
    b (c_pipeline m tk) = inr p ∧
    b (c_eos p) = inr eos ∧
    b (c_eot p) = inr eot ∧
    cs = [c_config; c_tokenizer s; c_model s cfg; c_pipeline m tk; c_eos p; c_eot p].

(** What follows the configuration checks, as a relation between the
    library, the actions and the way the generator ends. *)
Inductive backend_run (b : backend) (s : state)
    : list action → result unit → Prop :=
| BR_config e :
    b c_config = inl e →
    backend_run b s [ACall c_config] (inl e)
| BR_tokenizer cfg e :
    b c_config = inr cfg → b (c_tokenizer s) = inl e →
    backend_run b s [ACall c_config; ACall (c_tokenizer s)] (inl e)
| BR_model cfg tk e :
    b c_config = inr cfg → b (c_tokenizer s) = inr tk →
    b (c_model s cfg) = inl e →
    backend_run b s
      [ACall c_config; ACall (c_tokenizer s); ACall (c_model s cfg)] (inl e)
| BR_pipeline cfg tk m e :
    b c_config = inr cfg → b (c_tokenizer s) = inr tk →
    b (c_model s cfg) = inr m → b (c_pipeline m tk) = inl e →
    backend_run b s
      [ACall c_config; ACall (c_tokenizer s); ACall (c_model s cfg);
       ACall (c_pipeline m tk)] (inl e)
| BR_eos cfg tk m p e :
    b c_config = inr cfg → b (c_tokenizer s) = inr tk →
    b (c_model s cfg) = inr m → b (c_pipeline m tk) = inr p →
    b (c_eos p) = inl e →
    backend_run b s
      [ACall c_config; ACall (c_tokenizer s); ACall (c_model s cfg);
       ACall (c_pipeline m tk); ACall (c_eos p)] (inl e)
| BR_eot cfg tk m p eos e :
    b c_config = inr cfg → b (c_tokenizer s) = inr tk →
    b (c_model s cfg) = inr m → b (c_pipeline m tk) = inr p →
    b (c_eos p) = inr eos → b (c_eot p) = inl e →
    backend_run b s
      [ACall c_config; ACall (c_tokenizer s); ACall (c_model s cfg);
       ACall (c_pipeline m tk); ACall (c_eos p); ACall (c_eot p)] (inl e)
| BR_prepare p eos eot cs e :
    constructs b s p eos eot cs →
    backend_run b s (ACall <$> cs) (inl e)
| BR_pipe p eos eot cs msgs e :
    constructs b s p eos eot cs →
    b (c_pipe p msgs eos eot) = inl e →
    backend_run b s ((ACall <$> cs) ++ [ACall (c_pipe p msgs eos eot)]) (inl e)
| BR_response p eos eot cs msgs outputs e :
    constructs b s p eos eot cs →
    b (c_pipe p msgs eos eot) = inr outputs →
    assistant_response_of outputs = inl e →
    backend_run b s ((ACall <$> cs) ++ [ACall (c_pipe p msgs eos eot)]) (inl e)
| BR_answer p eos eot cs msgs outputs answer :
    constructs b s p eos eot cs →
    b (c_pipe p msgs eos eot) = inr outputs →
    assistant_response_of outputs = inr answer →
    backend_run b s
      ((ACall <$> cs) ++
       [ACall (c_pipe p msgs eos eot); AYield (Event answer "")])
      (inr tt).

(** What the [try] block does with the messages [msgs]. *)
Definition invoke_trace (b : backend) (p : handle) (msgs : list pyval)
    (eos eot : Z) : list action :=
  ACall (c_pipe p msgs eos eot) ::
  match b (c_pipe p msgs eos eot) with
  | inl _ => []
  | inr outputs =>
      match assistant_response_of outputs with
      | inl _ => []
      | inr answer => [AYield (Event answer "")]
      end
  end.

Definition invoke_outcome (b : backend) (p : handle) (msgs : list pyval)
    (eos eot : Z) : result unit :=
  match b (c_pipe p msgs eos eot) with
  | inl e => inl e
  | inr outputs =>
      match assistant_response_of outputs with
      | inl e => inl e
      | inr _ => inr tt
      end
  end.

(** ** Vocabulary of the further properties *)

(** Whether an action is the inference call [pipe(...)]. *)
Definition is_inference (a : action) : bool :=
  match a with
  | ACall (pipe_call _ _ _ _ _ _ _) => true
  | _ => false
  end.

(** A value as a conversation item, when it has the two attributes. *)
Definition as_item (v : pyval) : option ConversationItem :=
  match v with
  | VMessage ty c => Some (Item ty c)
  | _ => None
  end.

(** The exception [prepare_messages] raises on the objects it is given, in
    the order the code meets them: the conversation is iterated first, the
    queries are joined next, the context last. *)
Definition argument_error (conversation queries context : pyobj) : option exn :=
  match mapM as_item (py_iter conversation) with
  | None => Some AttributeError
  | Some _ =>
      match mapM as_str (py_iter queries) with
      | None => Some TypeError
      | Some _ =>
          match mapM as_str (py_iter context) with
          | None => Some TypeError
          | Some _ => None
          end
      end
  end.

(** The part of [generate_stream] that follows the construction of the
    pipeline: the default for [conversation], the assembly of the messages
    and the [try] block. *)
Definition assemble_and_invoke (pipe : handle) (eos eot : Z)
    (queries context : loc) (conversation : option loc) : gen unit :=
  let! conversation :=
    match conversation with
    | None => alloc (ODict [])
    | Some l => Ret l
    end in
  let! messages := prepare_messages queries context conversation in
  try_except
    (let! msgs := load messages in
     let! outputs :=
       call (pipe_call pipe (py_iter msgs) 256 [eos; eot] true (6 # 10) (9 # 10)) in
     let! assistant_response := lift_result (assistant_response_of outputs) in
     yield (Event assistant_response ""))
    exn_is_Exception
    (λ e, Raise e).

(** The object the conversation argument stands for: the one it refers to,
    or the empty dict the generator puts in place of [None]. *)
Definition conv_object (s : state) (conversation : option loc) (ov : pyobj)
    : Prop :=
  match conversation with
  | Some l => heap s !! l = Some ov
  | None => ov = ODict []
  end.

(** The part of [generate_stream] that follows the two checks: the six
    construction calls with the values read from the environment, then
    [assemble_and_invoke]. *)
Definition construct_and_invoke (access_token model_name : string)
    (queries context : loc) (conversation : option loc) : gen unit :=
  let! bnb_config := call (BitsAndBytesConfig true "nf4" true "bfloat16") in
  let! tokenizer := call (AutoTokenizer_from_pretrained model_name access_token) in
  let! model :=
    call (AutoModelForCausalLM_from_pretrained model_name access_token bnb_config) in
  let! pipe := call (pipeline "text-generation" model tokenizer "float16") in
  let! eos := call (tokenizer_eos_token_id pipe) in
  let! eot := call (tokenizer_convert_tokens_to_ids pipe "<|eot_id|>") in
  assemble_and_invoke pipe eos eot queries context conversation.

(** The state with another environment. *)
Definition with_environ (s : state) (env : gmap string string) : state :=
  State (self s) env (heap s).

(** A computation that does not look at the environment: in another
    environment it does the same and ends the same way, and leaves that
    environment in place. *)
Definition env_blind {A} (m : gen A) : Prop :=
  ∀ (b : backend) (s : state) (env : gmap string string),
    run b m (with_environ s env) =
      (let r := run b m s in
       Run (trace r) (with_environ (final r) env) (outcome r)).

(** ** Concrete inputs *)

Module Demo.

Definition generator : Llama3Generator := init "You are Verba.".

Definition history : list ConversationItem :=
  [Item "user" "Hello"; Item "assistant" "Hi, how can I help?"].

(** Three caller objects: the queries, the context passages and the
    conversation. *)
Definition queries : loc := 1%positive.
Definition context : loc := 2%positive.
Definition conversation : loc := 3%positive.

Definition objects : gmap loc pyobj :=
  {[ queries := OList [VStr "What is X?"];
     context := OList [VStr "X is a thing."];
     conversation := OList (item_val <$> history) ]}.

Definition env_valid : gmap string string :=
  {[ "HUGGINGFACE_TOKEN" := "hf_secret";
     "LLAMA3_MODEL_ID" := "meta-llama/Meta-Llama-3-8B-Instruct" ]}.

Definition env_no_token : gmap string string :=
  {[ "LLAMA3_MODEL_ID" := "meta-llama/Meta-Llama-3-8B-Instruct" ]}.

Definition env_no_model : gmap string string :=
  {[ "HUGGINGFACE_TOKEN" := "hf_secret" ]}.

Definition st (env : gmap string string) : state :=
  State generator env objects.

Definition OSError : exn := Exn "OSError" true false.
Definition RuntimeError : exn := Exn "RuntimeError" true false.

(** A library that cannot load anything. *)
Definition offline : backend :=
  λ c,
    match c return result (ret_ty c) with
    | BitsAndBytesConfig _ _ _ _ => inr (Handle 1)
    | _ => inl OSError
    end.

(** A library that loads whatever it is asked for and answers [answer]. *)
Definition answering (answer : string) : backend :=
  λ c,
    match c return result (ret_ty c) with
    | BitsAndBytesConfig _ _ _ _ => inr (Handle 1)
    | AutoTokenizer_from_pretrained _ _ => inr (Handle 2)
    | AutoModelForCausalLM_from_pretrained _ _ _ => inr (Handle 3)
    | pipeline _ _ _ _ => inr (Handle 4)
    | tokenizer_eos_token_id _ => inr 128001
    | tokenizer_convert_tokens_to_ids _ _ => inr 128009
    | pipe_call _ msgs _ _ _ _ _ =>
        inr [ {| generated_text := msgs ++ [VDict "assistant" answer] |} ]
    end.

(** A library that loads the model and fails at inference. *)
Definition failing : backend :=
  λ c,
    match c return result (ret_ty c) with
    | pipe_call _ _ _ _ _ _ _ => inl RuntimeError
    | c => answering "" c
    end.

End Demo.

Module Cases.

(** Objects of the wrong shapes (a query that is not a string, a
    conversation given as a dict, a conversation with a string in it) and
    an empty conversation. *)
Definition bad_queries : loc := 5%positive.
Definition dict_conversation : loc := 6%positive.
Definition bad_conversation : loc := 7%positive.
Definition empty_conversation : loc := 8%positive.

Definition objects : gmap loc pyobj :=
  <[bad_queries := OList [VStr "What is X?"; VDict "user" "not a string"]]>
    (<[dict_conversation := ODict [(VStr "user", VStr "Hello")]]>
       (<[bad_conversation := OList [VMessage "user" "Hello"; VStr "Hi"]]>
          (<[empty_conversation := OList []]> Demo.objects))).

Definition st (env : gmap string string) : state :=
  State Demo.generator env objects.

(** A library whose inference call returns no generation. *)
Definition empty_output : backend :=
  λ c,
    match c return result (ret_ty c) with
    | pipe_call _ _ _ _ _ _ _ => inr []
    | c => Demo.answering "" c
    end.

End Cases.

Module Several.

(** Several queries and several context passages. *)
Definition queries : loc := 1%positive.
Definition context : loc := 2%positive.
Definition conversation : loc := 3%positive.

Definition objects : gmap loc pyobj :=
  {[ queries := OList [VStr "What is X?"; VStr "And what is Y?"];
     context := OList [VStr "X is a thing."; VStr "Y is another.";
                       VStr "Z is a third."];
     conversation := OList (item_val <$> Demo.history) ]}.

Definition st (env : gmap string string) : state :=
  State Demo.generator env objects.

(** A library that loads the model and whose inference call raises
    [StopIteration]. *)
Definition exhausted : backend :=
  λ c,
    match c return result (ret_ty c) with
    | pipe_call _ _ _ _ _ _ _ => inl StopIteration
    | c => Demo.answering "" c
    end.

End Several.

(** * Verification *)

(** ** The run of a sequence *)

Lemma run_eta {R} (r : run_result R) : Run (trace r) (final r) (outcome r) = r.
Proof. by destruct r. Qed.

Lemma run_bind {A B} (b : backend) (m : gen A) (f : A → gen B) (s : state) :
  run b (bind m f) s =
    match outcome (run b m s) with
    | inl e => Run (trace (run b m s)) (final (run b m s)) (inl e)
    | inr a =>
        let r := run b (f a) (final (run b m s)) in
        Run (trace (run b m s) ++ trace r) (final r) (outcome r)
    end.
Proof.
  revert s. induction m as [a|e|ev k IH|c k IH|k IH|s' k IH]; intros s; simpl.
  - by rewrite run_eta.
  - done.
  - rewrite IH. by destruct (outcome (run b k s)).
  - rewrite IH. by destruct (outcome (run b (k (b c)) s)).
  - apply IH.
  - apply IH.
Qed.

Lemma run_bind_returns {A B} b (m : gen A) (f : A → gen B) s s' a :
  returns b m s s' a → run b (bind m f) s = run b (f a) s'.
Proof.
  unfold returns. intros Hm. rewrite run_bind, Hm. simpl. apply run_eta.
Qed.

(** ** The store *)

Lemma fresh_loc_None (h : gmap loc pyobj) : h !! fresh_loc h = None.
Proof. unfold fresh_loc. apply (not_elem_of_dom (D := gset loc)), is_fresh. Qed.

Lemma fresh_loc_ne (h : gmap loc pyobj) (l : loc) (o : pyobj) :
  h !! l = Some o → l ≠ fresh_loc h.
Proof. intros Hl ->. by rewrite fresh_loc_None in Hl. Qed.

Lemma mapM_as_str (xs : list string) : mapM as_str (VStr <$> xs) = Some xs.
Proof. by apply mapM_fmap_Some. Qed.

Lemma str_join_returns b sep xs s :
  returns b (str_join sep (VStr <$> xs)) s s (join sep xs).
Proof. unfold returns, str_join. by rewrite mapM_as_str. Qed.

(** The loop of [prepare_messages] appends one dictionary per item, in
    order, to the list at [l], and touches nothing else. *)
Lemma for_each_append b (l : loc) (cv : list ConversationItem) :
  ∀ (s : state) (acc : list pyval),
    heap s !! l = Some (OList acc) →
    returns b
      (for_each (item_val <$> cv) (λ message,
         let! ty := getattr_type message in
         let! c := getattr_content message in
         list_append l (VDict ty c)))
      s (with_heap s (<[l := OList (acc ++ (item_dict <$> cv))]> (heap s))) tt.
Proof.
  induction cv as [|m cv IH]; intros s acc Hl; unfold returns in *; simpl.
  - rewrite app_nil_r, insert_id by done. by destruct s.
  - rewrite Hl. simpl.
    etrans; [apply (IH _ (acc ++ [item_dict m])); simpl; apply lookup_insert_eq|].
    unfold with_heap. simpl.
    by rewrite insert_insert_eq, <- app_assoc.
Qed.

(** ** prepare_messages on well-formed arguments *)

Arguments fresh_loc : simpl never.

Lemma prepare_messages_returns b s lq lc lv qs cx cv :
  strs_at s lq qs → strs_at s lc cx → conv_at s lv cv →
  returns b (prepare_messages lq lc lv) s
    (with_heap s
       (<[fresh_loc (heap s) :=
            OList (assembled (system_message (self s)) cv cx qs)]> (heap s)))
    (fresh_loc (heap s)).
Proof.
  intros (oq & Hq & Hqs) (oc & Hc & Hcx) (ov & Hv & Hcv).
  assert (Hnq := fresh_loc_ne _ _ _ Hq).
  assert (Hnc := fresh_loc_ne _ _ _ Hc).
  assert (Hnv := fresh_loc_ne _ _ _ Hv).
  unfold returns, prepare_messages. simpl.
  rewrite lookup_insert_ne, Hv by done.
  simpl. rewrite Hcv.
  erewrite run_bind_returns; last first.
  { apply for_each_append. simpl. apply lookup_insert_eq. }
  unfold with_heap. simpl.
  rewrite insert_insert_eq, lookup_insert_ne, Hq by done.
  simpl. rewrite Hqs.
  erewrite run_bind_returns by apply str_join_returns. simpl.
  rewrite lookup_insert_ne, Hc by done.
  simpl. rewrite Hcx.
  erewrite run_bind_returns by apply str_join_returns. simpl.
  rewrite lookup_insert_eq. simpl.
  unfold assembled.
  by rewrite insert_insert_eq.
Qed.

(** ** Frame: what a run leaves alone *)

Lemma preserves_refl s : preserves s s.
Proof. by repeat split. Qed.

Lemma preserves_insert s0 s l o :
  heap s0 !! l = None → preserves s0 s →
  preserves s0 (State (self s) (environ s) (<[l := o]> (heap s))).
Proof.
  intros Hl (? & ? & ?). repeat split; simpl; try done.
  by apply insert_subseteq_r.
Qed.

Lemma preserves_alloc s o :
  preserves s (State (self s) (environ s) (<[fresh_loc (heap s) := o]> (heap s))).
Proof. apply preserves_insert; [apply fresh_loc_None | apply preserves_refl]. Qed.

Lemma quiet_bind {A B} b s0 (m : gen A) (f : A → gen B) Q Q' :
  quiet b s0 m Q → (∀ a, Q a → quiet b s0 (f a) Q') → quiet b s0 (bind m f) Q'.
Proof.
  intros Hm Hf s Hs. destruct (Hm s Hs) as (Ht & Hp & Ha).
  rewrite run_bind. destruct (outcome (run b m s)) as [e|a]; simpl; [done|].
  destruct (Hf a (Ha a eq_refl) _ Hp) as (Ht' & Hp' & Ha').
  by rewrite Ht, Ht'.
Qed.

Lemma quiet_ret {A} b s0 (a : A) (Q : A → Prop) : Q a → quiet b s0 (Ret a) Q.
Proof.
  intros Ha s Hs. simpl. split; [done|]. split; [done|]. by intros ? [= <-].
Qed.

Lemma quiet_load b s0 l : quiet b s0 (load l) any.
Proof. intros s Hs. simpl. by destruct (heap s !! l). Qed.

Lemma quiet_get_state b s0 : quiet b s0 get_state any.
Proof. by intros s Hs. Qed.

Lemma quiet_alloc b s0 o : quiet b s0 (alloc o) (λ l, heap s0 !! l = None).
Proof.
  intros s Hs. simpl. split; [done|]. split.
  - apply preserves_insert; [|done].
    destruct Hs as (_ & _ & Hsub).
    eapply lookup_weaken_None; [apply fresh_loc_None | done].
  - intros a [= <-]. destruct Hs as (_ & _ & Hsub).
    eapply lookup_weaken_None; [apply fresh_loc_None | done].
Qed.

Lemma quiet_str_join b s0 sep items : quiet b s0 (str_join sep items) any.
Proof. intros s Hs. unfold str_join. by destruct (mapM as_str items). Qed.

Lemma quiet_list_append b s0 l v :
  heap s0 !! l = None → quiet b s0 (list_append l v) any.
Proof.
  intros Hl s Hs. simpl.
  destruct (heap s !! l) as [[items|items]|]; simpl; try done.
  split; [done|]. split; [|done]. by apply preserves_insert.
Qed.

Lemma quiet_for_each b s0 items body :
  (∀ v, quiet b s0 (body v) any) → quiet b s0 (for_each items body) any.
Proof.
  intros Hbody. induction items as [|v items IH]; simpl.
  - by apply quiet_ret.
  - eapply quiet_bind; [apply Hbody | by intros _ _].
Qed.

Lemma quiet_getattr_type b s0 v : quiet b s0 (getattr_type v) any.
Proof. intros s Hs. by destruct v. Qed.

Lemma quiet_getattr_content b s0 v : quiet b s0 (getattr_content v) any.
Proof. intros s Hs. by destruct v. Qed.

Lemma quiet_prepare_messages b s0 (queries context conversation : loc) :
  quiet b s0 (prepare_messages queries context conversation) any.
Proof.
  unfold prepare_messages.
  eapply quiet_bind; [apply quiet_get_state|]. intros s _.
  eapply quiet_bind; [apply quiet_alloc|]. intros messages Hm.
  eapply quiet_bind; [apply quiet_load|]. intros conv _.
  eapply quiet_bind.
  { apply quiet_for_each. intros v.
    eapply quiet_bind; [apply quiet_getattr_type|]. intros ty _.
    eapply quiet_bind; [apply quiet_getattr_content|]. intros c _.
    by apply quiet_list_append. }
  intros _ _.
  eapply quiet_bind; [apply quiet_load|]. intros qs _.
  eapply quiet_bind; [apply quiet_str_join|]. intros query _.
  eapply quiet_bind; [apply quiet_load|]. intros cs _.
  eapply quiet_bind; [apply quiet_str_join|]. intros user_context _.
  eapply quiet_bind; [by apply quiet_list_append|]. intros _ _.
  by apply quiet_ret.
Qed.

(** ** The runs of generate_stream *)

Arguments prepare_messages : simpl never.

Lemma unset_default s key : unset s key ↔ default "" (environ s !! key) = "".
Proof.
  unfold unset. destruct (environ s !! key) as [x|]; simpl; split.
  - by intros [|[= ->]].
  - intros ->. by right.
  - done.
  - by left.
Qed.

Lemma constructs_intro (b : backend) s cfg tk m p eos eot :
  b c_config = inr cfg → b (c_tokenizer s) = inr tk →
  b (c_model s cfg) = inr m → b (c_pipeline m tk) = inr p →
  b (c_eos p) = inr eos → b (c_eot p) = inr eot →
  constructs b s p eos eot
    [c_config; c_tokenizer s; c_model s cfg; c_pipeline m tk; c_eos p; c_eot p].
Proof. intros. by exists cfg, tk, m. Qed.

Lemma run_call_bind {A} b (c : backend_call) (f : ret_ty c → gen A) s :
  run b (let! x := call c in f x) s =
    match b c with
    | inl e => Run [ACall c] s (inl e)
    | inr x =>
        let r := run b (f x) s in Run (ACall c :: trace r) (final r) (outcome r)
    end.
Proof. simpl. by destruct (b c). Qed.

Lemma run_guard {A} b (P : Prop) `{Decision P} ev (k : gen A) s :
  run b ((if decide P then yield ev else Ret tt) ;;; k) s =
    (let r := run b k s in
     Run ((AYield <$> if decide P then [ev] else []) ++ trace r)
         (final r) (outcome r)).
Proof. destruct (decide P); simpl; [done|]. by rewrite run_eta. Qed.

(** The part of [generate_stream] inside [try]. *)
Lemma run_invoke (b : backend) s0 s p eos eot cs (messages : loc) :
  constructs b s0 p eos eot cs →
  let r :=
    run b
      (try_except
         (let! msgs := load messages in
          let! outputs :=
            call (pipe_call p (py_iter msgs) 256 [eos; eot] true (6 # 10) (9 # 10)) in
          let! assistant_response :=
            lift_result (assistant_response_of outputs) in
          yield (Event assistant_response ""))
         exn_is_Exception (λ e, Raise e)) s in
  final r = s ∧
  backend_run b s0 ((ACall <$> cs) ++ trace r) (outcome r).
Proof.
  intros Hcs. cbn.
  destruct (heap s !! messages) as [o|]; cbn.
  2: { split; [done|]. rewrite app_nil_r. by eapply BR_prepare. }
  fold (c_pipe p (py_iter o) eos eot).
  destruct (b (c_pipe p (py_iter o) eos eot)) as [e|outputs] eqn:Hpipe; cbn.
  { destruct (exn_is_Exception e); cbn; (split; [done|]); by eapply BR_pipe. }
  destruct (assistant_response_of outputs) as [e|answer] eqn:Hans; cbn.
  { destruct (exn_is_Exception e); cbn; (split; [done|]);
      by eapply BR_response. }
  split; [done|]. by eapply BR_answer.
Qed.

(** Every run of [generate_stream]: the configuration events, then one of
    the runs of [backend_run]; the caller's objects, the receiver and the
    environment are left as they were. *)
Lemma generate_stream_runs (b : backend) queries context conversation s :
  let r := run b (generate_stream queries context conversation) s in
  preserves s (final r) ∧
  ∃ t, trace r = (AYield <$> config_events s) ++ t ∧
       backend_run b s t (outcome r).
Proof.
  unfold generate_stream, config_events.
  erewrite run_bind_returns by reflexivity.
  rewrite run_guard. cbv zeta.
  erewrite run_bind_returns by reflexivity.
  rewrite run_guard. cbv zeta. cbn [trace final outcome].
  fold (access_token_of s). fold (model_name_of s).
  match goal with |- context [run b ?k s] => set (rest := k) end.
  assert (Hrest : let r := run b rest s in
     preserves s (final r) ∧ backend_run b s (trace r) (outcome r)).
  2: { destruct Hrest as [Hp Hr]. split; [done|].
       exists (trace (run b rest s)). by rewrite fmap_app, <- app_assoc. }
  subst rest. cbv zeta.
  rewrite run_call_bind. fold c_config.
  destruct (b c_config) as [e|cfg] eqn:H1; cbn [trace final outcome].
  { split; [apply preserves_refl | by apply BR_config]. }
  rewrite run_call_bind. fold (c_tokenizer s).
  destruct (b (c_tokenizer s)) as [e|tk] eqn:H2; cbn [trace final outcome].
  { split; [apply preserves_refl | by eapply BR_tokenizer]. }
  rewrite run_call_bind. fold (c_model s cfg).
  destruct (b (c_model s cfg)) as [e|m] eqn:H3; cbn [trace final outcome].
  { split; [apply preserves_refl | by eapply BR_model]. }
  rewrite run_call_bind. fold (c_pipeline m tk).
  destruct (b (c_pipeline m tk)) as [e|p] eqn:H4; cbn [trace final outcome].
  { split; [apply preserves_refl | by eapply BR_pipeline]. }
  rewrite run_call_bind. fold (c_eos p).
  destruct (b (c_eos p)) as [e|eos] eqn:H5; cbn [trace final outcome].
  { split; [apply preserves_refl | by eapply BR_eos]. }
  rewrite run_call_bind. fold (c_eot p).
  destruct (b (c_eot p)) as [e|eot] eqn:H6; cbn [trace final outcome].
  { split; [apply preserves_refl | by eapply BR_eot]. }
  assert (Hcs := constructs_intro _ _ _ _ _ _ _ _ H1 H2 H3 H4 H5 H6).
  match goal with
  | |- context [ACall ?c1 :: ACall ?c2 :: ACall ?c3 :: ACall ?c4 ::
                ACall ?c5 :: ACall ?c6 :: ?t] =>
      change (ACall c1 :: ACall c2 :: ACall c3 :: ACall c4 ::
              ACall c5 :: ACall c6 :: t)
        with ((ACall <$> [c1; c2; c3; c4; c5; c6]) ++ t)
  end.
  set (cs := [c_config; _; _; _; _; _]) in *.
  assert (Hfrom : ∀ s1 lv, preserves s s1 →
    let r := run b
      (let! messages := prepare_messages queries context lv in
       try_except
         (let! msgs := load messages in
          let! outputs :=
            call (pipe_call p (py_iter msgs) 256 [eos; eot] true (6 # 10) (9 # 10)) in
          let! assistant_response :=
            lift_result (assistant_response_of outputs) in
          yield (Event assistant_response ""))
         exn_is_Exception (λ e, Raise e)) s1 in
    preserves s (final r) ∧
    backend_run b s ((ACall <$> cs) ++ trace r) (outcome r)).
  { intros s1 lv Hs1. cbv zeta. rewrite run_bind.
    destruct (quiet_prepare_messages b s queries context lv s1 Hs1)
      as (Ht & Hp & _).
    rewrite Ht.
    destruct (outcome (run b (prepare_messages queries context lv) s1))
      as [e|messages]; cbn [trace final outcome].
    { split; [done|]. rewrite app_nil_r. by eapply BR_prepare. }
    destruct (run_invoke b s
                (final (run b (prepare_messages queries context lv) s1))
                p eos eot cs messages Hcs) as [Hf Hr].
    rewrite app_nil_l. cbv zeta in Hf, Hr.
    split; [exact (eq_ind_r (preserves s) Hp Hf) | exact Hr]. }
  destruct conversation as [lv|].
  - cbn [bind]. apply Hfrom, preserves_refl.
  - erewrite run_bind_returns by reflexivity. apply Hfrom, preserves_alloc.
Qed.

(** ** Events and calls of a trace *)

Lemma events_app t1 t2 : events (t1 ++ t2) = events t1 ++ events t2.
Proof. apply omap_app. Qed.

Lemma events_yields (evs : list GenerationEvent) : events (AYield <$> evs) = evs.
Proof. induction evs as [|ev evs IH]; simpl; [done|]. by f_equal. Qed.

Lemma events_calls (cs : list backend_call) : events (ACall <$> cs) = [].
Proof. by induction cs. Qed.

Lemma call_not_in_yields c (evs : list GenerationEvent) :
  ACall c ∉ AYield <$> evs.
Proof. intros (ev & [=] & _)%list_elem_of_fmap. Qed.

(** The events of a run of the backend part: none when it ends with an
    exception, the answer alone when it returns. *)
Lemma backend_run_events b s t o :
  backend_run b s t o →
  (events t = [] ∧ ∃ e, o = inl e) ∨
  (∃ answer, events t = [Event answer ""] ∧ o = inr tt).
Proof.
  destruct 1; try (left; split; [done | by eexists]).
  - left. split; [apply events_calls | by eexists].
  - left. split; [|by eexists].
    by rewrite events_app, events_calls.
  - left. split; [|by eexists].
    by rewrite events_app, events_calls.
  - right. exists answer. split; [|done].
    by rewrite events_app, events_calls.
Qed.

(** The backend part starts with the construction of the quantization
    configuration, and loads the tokenizer next when that returns. *)
Lemma backend_run_head b s t o :
  backend_run b s t o →
  ∃ t', t = ACall c_config :: t' ∧
    ∀ cfg, b c_config = inr cfg → ∃ t'', t' = ACall (c_tokenizer s) :: t''.
Proof.
  destruct 1;
    repeat match goal with
    | H : constructs _ _ _ _ _ _ |- _ =>
        destruct H as (? & ? & ? & ? & ? & ? & ? & ? & ? & ->)
    end;
    (eexists; split; [reflexivity|]); intros cfg' Hcfg'; try congruence;
    by eexists.
Qed.

(** Case analysis on the membership of a call in a concrete trace: the
    calls that returned are excluded by [Hb], which says the call raised. *)
Ltac find_call Hin :=
  first
    [ by apply elem_of_nil in Hin
    | apply elem_of_cons in Hin as [Hin|Hin];
      [ first [ discriminate Hin
              | injection Hin as ->; first [ congruence | idtac ] ]
      | find_call Hin ] ].

Ltac destruct_constructs :=
  repeat match goal with
  | H : constructs _ _ _ _ _ _ |- _ =>
      destruct H as (? & ? & ? & ? & ? & ? & ? & ? & ? & ->)
  end.

(** A call of the backend part that raises ends the run with its
    exception: it is the last action, it was not made before, and nothing
    was yielded. *)
Lemma backend_run_failure (b : backend) s t o c e :
  backend_run b s t o → ACall c ∈ t → b c = inl e →
  o = inl e ∧ ∃ pre, t = pre ++ [ACall c] ∧ (ACall c ∉ pre) ∧ events pre = [].
Proof.
  intros Hrun Hin Hb.
  destruct Hrun; destruct_constructs; cbn in Hin; find_call Hin.
  all: split; [congruence|].
  all: match goal with
       | |- ∃ pre, ?t = _ ∧ _ => exists (removelast t); cbn
       end.
  all: split; [done|]; split; [|done].
  all: repeat (apply not_elem_of_cons; split; [discriminate|]).
  all: apply not_elem_of_nil.
Qed.

(** ** generate_stream on well-formed arguments *)

Lemma strs_at_preserves s s' l xs :
  preserves s s' → strs_at s l xs → strs_at s' l xs.
Proof.
  intros (_ & _ & Hsub) (o & Hl & Hxs). exists o. split; [|done].
  by eapply lookup_weaken.
Qed.

Lemma run_invoke_at (b : backend) s p eos eot (messages : loc) msgs :
  heap s !! messages = Some (OList msgs) →
  run b
    (try_except
       (let! msgs := load messages in
        let! outputs :=
          call (pipe_call p (py_iter msgs) 256 [eos; eot] true (6 # 10) (9 # 10)) in
        let! assistant_response :=
          lift_result (assistant_response_of outputs) in
        yield (Event assistant_response ""))
       exn_is_Exception (λ e, Raise e)) s =
  Run (invoke_trace b p msgs eos eot) s (invoke_outcome b p msgs eos eot).
Proof.
  intros Hm. unfold invoke_trace, invoke_outcome. cbn. rewrite Hm. cbn.
  fold (c_pipe p msgs eos eot).
  destruct (b (c_pipe p msgs eos eot)) as [e|outputs]; cbn.
  { by destruct (exn_is_Exception e). }
  destruct (assistant_response_of outputs) as [e|answer]; cbn; [|done].
  by destruct (exn_is_Exception e).
Qed.

(** With well-formed arguments and a library that builds the pipeline, the
    run is determined: the configuration events, the six construction
    calls, and the [pipe] call on the assembled messages. *)
Lemma generate_stream_wf_run (b : backend) queries context conversation s
    qs cx cv p eos eot cs :
  strs_at s queries qs → strs_at s context cx → conv_arg s conversation cv →
  constructs b s p eos eot cs →
  let msgs := assembled (system_message (self s)) cv cx qs in
  let r := run b (generate_stream queries context conversation) s in
  trace r =
    (AYield <$> config_events s) ++ (ACall <$> cs) ++
    invoke_trace b p msgs eos eot ∧
  outcome r = invoke_outcome b p msgs eos eot.
Proof.
  intros Hq Hc Hv (cfg & tk & m & H1 & H2 & H3 & H4 & H5 & H6 & ->).
  cbv zeta. unfold generate_stream, config_events.
  erewrite run_bind_returns by reflexivity.
  rewrite run_guard. cbv zeta.
  erewrite run_bind_returns by reflexivity.
  rewrite run_guard. cbv zeta. cbn [trace final outcome].
  fold (access_token_of s). fold (model_name_of s).
  rewrite run_call_bind. fold c_config. rewrite H1. cbv zeta.
  rewrite run_call_bind. fold (c_tokenizer s). rewrite H2. cbv zeta.
  rewrite run_call_bind. fold (c_model s cfg). rewrite H3. cbv zeta.
  rewrite run_call_bind. fold (c_pipeline m tk). rewrite H4. cbv zeta.
  rewrite run_call_bind. fold (c_eos p). rewrite H5. cbv zeta.
  rewrite run_call_bind. fold (c_eot p). rewrite H6. cbv zeta.
  cbn [trace final outcome].
  assert (Hfrom : ∀ s1 lv,
    preserves s s1 → conv_at s1 lv cv →
    run b
      (let! messages := prepare_messages queries context lv in
       try_except
         (let! msgs := load messages in
          let! outputs :=
            call (pipe_call p (py_iter msgs) 256 [eos; eot] true (6 # 10) (9 # 10)) in
          let! assistant_response :=
            lift_result (assistant_response_of outputs) in
          yield (Event assistant_response ""))
         exn_is_Exception (λ e, Raise e)) s1 =
    Run (invoke_trace b p (assembled (system_message (self s)) cv cx qs) eos eot)
        (with_heap s1
           (<[fresh_loc (heap s1) :=
                OList (assembled (system_message (self s)) cv cx qs)]> (heap s1)))
        (invoke_outcome b p (assembled (system_message (self s)) cv cx qs) eos eot)).
  { intros s1 lv Hs1 Hlv.
    erewrite run_bind_returns; last first.
    { apply prepare_messages_returns;
        [by eapply strs_at_preserves | by eapply strs_at_preserves | done]. }
    destruct Hs1 as (-> & _ & _).
    apply run_invoke_at. simpl. apply lookup_insert_eq. }
  destruct conversation as [lv|]; simpl in Hv.
  - cbn [bind].
    match goal with |- context [run b ?k s] => set (R := run b k s) end.
    assert (HR : R = _) by (apply (Hfrom s lv); [apply preserves_refl | done]).
    rewrite HR. cbn [trace final outcome]. split; [|done].
    by rewrite fmap_app, <- app_assoc.
  - subst cv. erewrite run_bind_returns by reflexivity.
    match goal with |- context [run b ?k ?s1] => set (R := run b k s1) end.
    assert (HR : R = _)
      by (apply Hfrom; [apply preserves_alloc|];
          exists (ODict []); split; [|done]; simpl; apply lookup_insert_eq).
    rewrite HR. cbn [trace final outcome]. split; [|done].
    by rewrite fmap_app, <- app_assoc.
Qed.

(** * Properties of the specification *)

(** ** Prompt assembly *)

Section prepare_messages_wf.
Context (b : backend) (s : state).
Context (queries context conversation : loc).
Context (qs cx : list string) (cv : list ConversationItem).
Hypothesis Hqueries : strs_at s queries qs.
Hypothesis Hcontext : strs_at s context cx.
Hypothesis Hconversation : conv_at s conversation cv.

Let r := run b (prepare_messages queries context conversation) s.

(** On well-formed arguments the call returns a reference to a list that
    holds the assembled messages. *)
Lemma prepare_messages_result :
  ∃ l, outcome r = inr l ∧
       heap (final r) !! l =
         Some (OList (assembled (system_message (self s)) cv cx qs)).
Proof using Hqueries Hcontext Hconversation.
  subst r. rewrite (prepare_messages_returns b s _ _ _ qs cx cv) by done.
  eexists. split; [reflexivity|]. simpl. apply lookup_insert_eq.
Qed.
End prepare_messages_wf.

Lemma assembled_length sys cv cx qs :
  length (assembled sys cv cx qs) = (2 + length cv)%nat.
Proof. unfold assembled. simpl. rewrite length_app, length_fmap. simpl. lia. Qed.

Lemma assembled_last sys cv cx qs :
  last (assembled sys cv cx qs) =
    Some (VDict "user" (user_prompt (join " " cx) (join " " qs))).
Proof. unfold assembled. by rewrite app_comm_cons, last_snoc. Qed.

Lemma assembled_middle sys cv cx qs :
  take (length cv) (drop 1 (assembled sys cv cx qs)) = item_dict <$> cv.
Proof.
  unfold assembled. rewrite skipn_cons, drop_0.
  apply take_app_length'. by rewrite length_fmap.
Qed.

Lemma join_nil sep : join sep [] = "".
Proof. done. Qed.

Lemma join_singleton sep x : join sep [x] = x.
Proof. done. Qed.

Lemma join_cons sep x y rest :
  join sep (x :: y :: rest) = x +:+ sep +:+ join sep (y :: rest).
Proof. done. Qed.

Example join_three : join " " ["What"; "is"; "X?"] = "What is X?".
Proof. reflexivity. Qed.

(** C3. For well-formed queries, context and conversation,
    [prepare_messages] returns a list of exactly 2 + |conversation|
    messages; the first has role "system" and the last has role "user". *)
Theorem prepare_messages_shape (b : backend) (s : state)
    (queries context conversation : loc)
    (qs cx : list string) (cv : list ConversationItem) :
  strs_at s queries qs → strs_at s context cx → conv_at s conversation cv →
  let r := run b (prepare_messages queries context conversation) s in
  ∃ l msgs,
    outcome r = inr l ∧ heap (final r) !! l = Some (OList msgs) ∧
    length msgs = (2 + length cv)%nat ∧
    head msgs ≫= role_of = Some "system" ∧
    last msgs ≫= role_of = Some "user".
Proof.
  intros Hq Hc Hv r.
  destruct (prepare_messages_result b s _ _ _ qs cx cv Hq Hc Hv) as (l & Ho & Hl).
  exists l, (assembled (system_message (self s)) cv cx qs).
  split; [done|]. split; [done|]. split; [apply assembled_length|].
  split; [done|]. by rewrite assembled_last.
Qed.

Lemma prepare_messages_shape_witness :
  let r :=
    run (Demo.answering "Paris")
      (prepare_messages Demo.queries Demo.context Demo.conversation)
      (Demo.st Demo.env_valid) in
  ∃ l msgs,
    outcome r = inr l ∧ heap (final r) !! l = Some (OList msgs) ∧
    length msgs = 4%nat ∧
    head msgs ≫= role_of = Some "system" ∧
    last msgs ≫= role_of = Some "user".
Proof.
  apply (prepare_messages_shape _ _ Demo.queries Demo.context Demo.conversation
           ["What is X?"] ["X is a thing."] Demo.history).
  - exists (OList [VStr "What is X?"]). split; reflexivity.
  - exists (OList [VStr "X is a thing."]). split; reflexivity.
  - exists (OList (item_val <$> Demo.history)). split; reflexivity.
Defined.

(** C4. The messages between the first and the last are the conversation
    items in their original order, each with its type as the role and its
    content unchanged; this holds for a conversation of any length. *)
Theorem prepare_messages_middle (b : backend) (s : state)
    (queries context conversation : loc)
    (qs cx : list string) (cv : list ConversationItem) :
  strs_at s queries qs → strs_at s context cx → conv_at s conversation cv →
  let r := run b (prepare_messages queries context conversation) s in
  ∃ l msgs,
    outcome r = inr l ∧ heap (final r) !! l = Some (OList msgs) ∧
    take (length cv) (drop 1 msgs) =
      (λ m, VDict (item_type m) (item_content m)) <$> cv.
Proof.
  intros Hq Hc Hv r.
  destruct (prepare_messages_result b s _ _ _ qs cx cv Hq Hc Hv) as (l & Ho & Hl).
  exists l, (assembled (system_message (self s)) cv cx qs).
  split; [done|]. split; [done|]. apply assembled_middle.
Qed.

Lemma prepare_messages_middle_witness :
  let r :=
    run (Demo.answering "Paris")
      (prepare_messages Demo.queries Demo.context Demo.conversation)
      (Demo.st Demo.env_valid) in
  ∃ l msgs,
    outcome r = inr l ∧ heap (final r) !! l = Some (OList msgs) ∧
    take 2 (drop 1 msgs) =
      [VDict "user" "Hello"; VDict "assistant" "Hi, how can I help?"].
Proof.
  apply (prepare_messages_middle _ _ Demo.queries Demo.context Demo.conversation
           ["What is X?"] ["X is a thing."] Demo.history).
  - exists (OList [VStr "What is X?"]). split; reflexivity.
  - exists (OList [VStr "X is a thing."]). split; reflexivity.
  - exists (OList (item_val <$> Demo.history)). split; reflexivity.
Defined.

Lemma string_append_empty_r (x : string) : x +:+ "" = x.
Proof.
  induction x as [|a x IH]; [done|].
  change (String a (x +:+ "") = String a x). by rewrite IH.
Qed.

(** The code's [join] with a space is the joined text of the specification. *)
Lemma join_spaces (xs : list string) : join " " xs = joined_with_spaces xs.
Proof.
  induction xs as [|x rest IH]; [done|].
  destruct rest as [|y rest].
  - simpl. by rewrite string_append_empty_r.
  - rewrite join_cons, IH. reflexivity.
Qed.

Lemma string_length_append (x y : string) :
  String.length (x +:+ y) = (String.length x + String.length y)%nat.
Proof.
  induction x as [|a x IH]; [done|].
  change (S (String.length (x +:+ y)) = S (String.length x + String.length y)).
  by rewrite IH.
Qed.

Lemma spaced_tail_length (rest : list string) :
  String.length (foldr (λ y acc, " " +:+ y +:+ acc) "" rest) =
    (sum_list_with String.length rest + length rest)%nat.
Proof.
  induction rest as [|y rest IH]; [done|].
  cbn [foldr sum_list_with length].
  rewrite !string_length_append, IH.
  change (String.length " ") with 1%nat. lia.
Qed.

(** The joined text has the characters of the strings and one separator
    between each two neighbours, and nothing else. *)
Lemma joined_with_spaces_length (xs : list string) :
  String.length (joined_with_spaces xs) =
    (sum_list_with String.length xs + pred (length xs))%nat.
Proof.
  destruct xs as [|x rest]; [done|].
  cbn [joined_with_spaces sum_list_with length pred].
  rewrite string_length_append, spaced_tail_length. lia.
Qed.

Example joined_with_spaces_three :
  joined_with_spaces ["What"; "is"; "X?"] = "What is X?".
Proof. reflexivity. Qed.

(** C5. The content of the last message is the fixed template around the
    context joined with single spaces and the queries joined with single
    spaces, the joined text being the one of the specification; empty
    sequences are well-formed arguments and join to the empty string. *)
Theorem prepare_messages_template (b : backend) (s : state)
    (queries context conversation : loc)
    (qs cx : list string) (cv : list ConversationItem) :
  strs_at s queries qs → strs_at s context cx → conv_at s conversation cv →
  let r := run b (prepare_messages queries context conversation) s in
  ∃ l msgs,
    outcome r = inr l ∧ heap (final r) !! l = Some (OList msgs) ∧
    last msgs ≫= content_of =
      Some ("With this provided context: '" +:+ joined_with_spaces cx +:+
            "' Please answer this query: '" +:+ joined_with_spaces qs +:+ "'").
Proof.
  intros Hq Hc Hv r.
  destruct (prepare_messages_result b s _ _ _ qs cx cv Hq Hc Hv) as (l & Ho & Hl).
  exists l, (assembled (system_message (self s)) cv cx qs).
  split; [done|]. split; [done|].
  rewrite assembled_last. unfold user_prompt. by rewrite !join_spaces.
Qed.

Lemma prepare_messages_template_witness :
  let r :=
    run (Demo.answering "Paris")
      (prepare_messages Several.queries Several.context Several.conversation)
      (Several.st Demo.env_valid) in
  ∃ l msgs,
    outcome r = inr l ∧ heap (final r) !! l = Some (OList msgs) ∧
    last msgs ≫= content_of =
      Some "With this provided context: 'X is a thing. Y is another. Z is a third.' Please answer this query: 'What is X? And what is Y?'".
Proof.
  apply (prepare_messages_template _ _
           Several.queries Several.context Several.conversation
           ["What is X?"; "And what is Y?"]
           ["X is a thing."; "Y is another."; "Z is a third."] Demo.history).
  - exists (OList [VStr "What is X?"; VStr "And what is Y?"]).
    split; reflexivity.
  - exists (OList [VStr "X is a thing."; VStr "Y is another.";
                   VStr "Z is a third."]).
    split; reflexivity.
  - exists (OList (item_val <$> Demo.history)). split; reflexivity.
Defined.

(** The same call evaluated on the code alone: the text is what the run
    computes, with no reference to the specification's definition. *)
Example prepare_messages_several_inputs :
  let r :=
    run Demo.offline
      (prepare_messages Several.queries Several.context Several.conversation)
      (Several.st ∅) in
  ∃ l, outcome r = inr l ∧
       heap (final r) !! l =
         Some (OList [VDict "system" "You are Verba.";
                      VDict "user" "Hello";
                      VDict "assistant" "Hi, how can I help?";
                      VDict "user" "With this provided context: 'X is a thing. Y is another. Z is a third.' Please answer this query: 'What is X? And what is Y?'"]).
Proof. eexists. split; vm_compute; reflexivity. Qed.

(** The empty-input case of the specification, run on the code. *)
Example prepare_messages_empty_inputs :
  let s := State Demo.generator ∅ {[ Demo.queries := OList [] ]} in
  let r :=
    run Demo.offline
      (prepare_messages Demo.queries Demo.queries Demo.queries) s in
  ∃ l, outcome r = inr l ∧
       heap (final r) !! l =
         Some (OList [VDict "system" "You are Verba.";
                      VDict "user" "With this provided context: '' Please answer this query: ''"]).
Proof. eexists. split; vm_compute; reflexivity. Qed.

(** ** Configuration errors *)

Lemma config_events_token s :
  unset s "HUGGINGFACE_TOKEN" →
  config_events s =
    missing_token_event ::
    (if decide (model_name_of s = "") then [missing_model_event] else []).
Proof.
  intros Htok%unset_default. unfold config_events.
  fold (access_token_of s) in Htok. by rewrite decide_True.
Qed.

Lemma config_events_model s :
  ¬ unset s "HUGGINGFACE_TOKEN" → unset s "LLAMA3_MODEL_ID" →
  config_events s = [missing_model_event].
Proof.
  intros Htok Hmod%unset_default. unfold config_events.
  rewrite unset_default in Htok.
  fold (access_token_of s) in Htok. fold (model_name_of s) in Hmod.
  by rewrite decide_False, decide_True.
Qed.

Lemma config_events_valid s :
  ¬ unset s "HUGGINGFACE_TOKEN" → ¬ unset s "LLAMA3_MODEL_ID" →
  config_events s = [].
Proof.
  intros Htok Hmod. unfold config_events.
  rewrite unset_default in Htok, Hmod.
  fold (access_token_of s) in Htok. fold (model_name_of s) in Hmod.
  by rewrite !decide_False.
Qed.

Lemma config_events_stop s : Forall is_stop (config_events s).
Proof.
  unfold config_events. apply Forall_app.
  split; case_decide; by repeat constructor.
Qed.

(** The events of a run: the configuration events, followed by the answer
    when the generator returns and by nothing when it raises. *)
Lemma generate_stream_events (b : backend) queries context conversation s :
  let r := run b (generate_stream queries context conversation) s in
  (events (trace r) = config_events s ∧ ∃ e, outcome r = inl e) ∨
  (∃ answer, events (trace r) = config_events s ++ [Event answer ""] ∧
             outcome r = inr tt).
Proof.
  cbv zeta.
  destruct (generate_stream_runs b queries context conversation s)
    as (_ & t & Ht & Hrun).
  rewrite Ht, events_app, events_yields.
  destruct (backend_run_events _ _ _ _ Hrun)
    as [[-> He]|(answer & -> & Ho)].
  - left. by rewrite app_nil_r.
  - right. by exists answer.
Qed.

(** What the code does guarantee about a missing credential. When
    HUGGINGFACE_TOKEN is absent or empty, the first action of
    [generate_stream] is to yield the event with message
    "Missing Hugging Face Token" and finish_reason "stop", before any call
    into the library; it is the only event of the run when LLAMA3_MODEL_ID
    is set and the run ends with an exception. *)
Theorem generate_stream_missing_token (b : backend) (s : state)
    (queries context : loc) (conversation : option loc) :
  unset s "HUGGINGFACE_TOKEN" →
  let r := run b (generate_stream queries context conversation) s in
  (∃ rest, trace r = AYield (Event "Missing Hugging Face Token" "stop") :: rest) ∧
  (¬ unset s "LLAMA3_MODEL_ID" → (∃ e, outcome r = inl e) →
   events (trace r) = [Event "Missing Hugging Face Token" "stop"]).
Proof.
  intros Htok. cbv zeta. split.
  - destruct (generate_stream_runs b queries context conversation s)
      as (_ & t & Ht & _).
    rewrite Ht, config_events_token by done. by eexists.
  - intros Hmod [e He].
    destruct (generate_stream_events b queries context conversation s)
      as [[Hev _]|(answer & _ & Ho)]; [|congruence].
    rewrite Hev, config_events_token by done.
    rewrite unset_default in Hmod. fold (model_name_of s) in Hmod.
    by rewrite decide_False.
Qed.

Lemma generate_stream_missing_token_witness :
  let r :=
    run Demo.offline
      (generate_stream Demo.queries Demo.context (Some Demo.conversation))
      (Demo.st Demo.env_no_token) in
  (∃ rest, trace r = AYield (Event "Missing Hugging Face Token" "stop") :: rest) ∧
  (¬ unset (Demo.st Demo.env_no_token) "LLAMA3_MODEL_ID" →
   (∃ e, outcome r = inl e) →
   events (trace r) = [Event "Missing Hugging Face Token" "stop"]).
Proof.
  apply (generate_stream_missing_token Demo.offline (Demo.st Demo.env_no_token)).
  left. reflexivity.
Defined.

(** C1. The claim is that a missing credential gives exactly one event.
    The code does not return after the event: with both keys absent the run
    yields two events, the missing credential and then the missing model,
    so the events are not a single one. *)
Lemma generate_stream_missing_token_not_single :
  unset (Demo.st ∅) "HUGGINGFACE_TOKEN" ∧
  events (trace (run Demo.offline
                   (generate_stream Demo.queries Demo.context None)
                   (Demo.st ∅))) =
    [Event "Missing Hugging Face Token" "stop";
     Event "Missing Llama3 Model" "stop"] ∧
  ¬ ∃ ev, events (trace (run Demo.offline
                           (generate_stream Demo.queries Demo.context None)
                           (Demo.st ∅))) = [ev].
Proof.
  split; [by left|].
  assert (Hev : events (trace (run Demo.offline
                   (generate_stream Demo.queries Demo.context None)
                   (Demo.st ∅))) =
    [Event "Missing Hugging Face Token" "stop";
     Event "Missing Llama3 Model" "stop"]) by (vm_compute; reflexivity).
  split; [done|]. rewrite Hev. by intros [ev [=]].
Qed.

(** C2. After the event for a missing required value the generator does
    not stop: the next action is the construction of the quantization
    configuration, and when that returns, the tokenizer is loaded with the
    values read from the environment. *)
Theorem generate_stream_continues_after_config_error (b : backend)
    (s : state) (queries context : loc) (conversation : option loc) :
  unset s "HUGGINGFACE_TOKEN" ∨ unset s "LLAMA3_MODEL_ID" →
  let r := run b (generate_stream queries context conversation) s in
  ∃ evs post,
    evs ≠ [] ∧ Forall (λ ev, finish_reason ev = "stop") evs ∧
    trace r =
      (AYield <$> evs) ++
      ACall (BitsAndBytesConfig true "nf4" true "bfloat16") :: post ∧
    ∀ cfg, b (BitsAndBytesConfig true "nf4" true "bfloat16") = inr cfg →
      ∃ post',
        post =
          ACall (AutoTokenizer_from_pretrained
                   (default "" (environ s !! "LLAMA3_MODEL_ID"))
                   (default "" (environ s !! "HUGGINGFACE_TOKEN"))) :: post'.
Proof.
  intros Hunset. cbv zeta.
  destruct (generate_stream_runs b queries context conversation s)
    as (_ & t & Ht & Hrun).
  destruct (backend_run_head _ _ _ _ Hrun) as (post & -> & Hpost).
  exists (config_events s), post. split; [|split; [|split]].
  - destruct Hunset as [Htok|Hmod].
    + by rewrite config_events_token.
    + unfold config_events. apply unset_default in Hmod.
      fold (model_name_of s) in Hmod. rewrite (decide_True _ _ Hmod).
      by destruct (decide _).
  - apply config_events_stop.
  - done.
  - exact Hpost.
Qed.

Lemma generate_stream_continues_after_config_error_witness :
  let r :=
    run Demo.offline
      (generate_stream Demo.queries Demo.context (Some Demo.conversation))
      (Demo.st Demo.env_no_token) in
  ∃ evs post,
    evs ≠ [] ∧ Forall (λ ev, finish_reason ev = "stop") evs ∧
    trace r =
      (AYield <$> evs) ++
      ACall (BitsAndBytesConfig true "nf4" true "bfloat16") :: post ∧
    ∀ cfg,
      Demo.offline (BitsAndBytesConfig true "nf4" true "bfloat16") = inr cfg →
      ∃ post',
        post =
          ACall (AutoTokenizer_from_pretrained
                   (default "" (Demo.env_no_token !! "LLAMA3_MODEL_ID"))
                   (default "" (Demo.env_no_token !! "HUGGINGFACE_TOKEN")))
          :: post'.
Proof.
  apply (generate_stream_continues_after_config_error Demo.offline
           (Demo.st Demo.env_no_token)).
  left. left. reflexivity.
Defined.

(** A run with the token missing and the library offline, evaluated: the
    error event, then two calls. *)
Example generate_stream_no_token_trace :
  trace (run Demo.offline
           (generate_stream Demo.queries Demo.context (Some Demo.conversation))
           (Demo.st Demo.env_no_token)) =
    [AYield (Event "Missing Hugging Face Token" "stop");
     ACall (BitsAndBytesConfig true "nf4" true "bfloat16");
     ACall (AutoTokenizer_from_pretrained
              "meta-llama/Meta-Llama-3-8B-Instruct" "")].
Proof. vm_compute. reflexivity. Qed.

(** What the code does guarantee about a missing model identifier. With
    the credential set and LLAMA3_MODEL_ID absent or empty, the run has
    exactly one event with finish_reason "stop"; its message is
    "Missing Llama3 Model", it is the first action of the run, and it is the
    only event whenever the run ends with an exception. *)
Theorem generate_stream_missing_model (b : backend) (s : state)
    (queries context : loc) (conversation : option loc) :
  ¬ unset s "HUGGINGFACE_TOKEN" → unset s "LLAMA3_MODEL_ID" →
  let r := run b (generate_stream queries context conversation) s in
  filter is_stop (events (trace r)) = [Event "Missing Llama3 Model" "stop"] ∧
  (∃ rest, trace r = AYield (Event "Missing Llama3 Model" "stop") :: rest) ∧
  ((∃ e, outcome r = inl e) →
   events (trace r) = [Event "Missing Llama3 Model" "stop"]).
Proof.
  intros Htok Hmod. cbv zeta.
  assert (Hcfg := config_events_model s Htok Hmod).
  split; [|split].
  - destruct (generate_stream_events b queries context conversation s)
      as [[-> _]|(answer & -> & _)]; by rewrite Hcfg.
  - destruct (generate_stream_runs b queries context conversation s)
      as (_ & t & Ht & _).
    rewrite Ht, Hcfg. by eexists.
  - intros [e He].
    destruct (generate_stream_events b queries context conversation s)
      as [[-> _]|(answer & _ & Ho)]; [done | congruence].
Qed.

Lemma generate_stream_missing_model_witness :
  let r :=
    run Demo.offline
      (generate_stream Demo.queries Demo.context (Some Demo.conversation))
      (Demo.st Demo.env_no_model) in
  filter is_stop (events (trace r)) = [Event "Missing Llama3 Model" "stop"] ∧
  (∃ rest, trace r = AYield (Event "Missing Llama3 Model" "stop") :: rest) ∧
  ((∃ e, outcome r = inl e) →
   events (trace r) = [Event "Missing Llama3 Model" "stop"]).
Proof.
  apply (generate_stream_missing_model Demo.offline (Demo.st Demo.env_no_model)).
  - intros [H|H]; vm_compute in H; discriminate H.
  - left. reflexivity.
Defined.

(** C8. The claim is that a missing model identifier gives exactly one
    event, which ends the sequence. The code does not return after the
    event. With the credential set and LLAMA3_MODEL_ID absent, a consumer
    that resumes the generator after the "stop" event does not reach the
    end of the sequence: the generator goes on to build the quantization
    configuration and to load the tokenizer for the empty model identifier,
    and the exception of the library reaches the consumer. With a library
    that accepts the empty identifier, a second event, the answer, follows
    the "stop" event. *)
Theorem generate_stream_missing_model_not_terminal :
  let s := Demo.st Demo.env_no_model in
  let body :=
    generate_stream Demo.queries Demo.context (Some Demo.conversation) in
  ((¬ unset s "HUGGINGFACE_TOKEN") ∧ unset s "LLAMA3_MODEL_ID") ∧
  (trace (run_agen Demo.offline body s) =
     [AYield (Event "Missing Llama3 Model" "stop");
      ACall (BitsAndBytesConfig true "nf4" true "bfloat16");
      ACall (AutoTokenizer_from_pretrained "" "hf_secret")] ∧
   outcome (run_agen Demo.offline body s) = inl Demo.OSError) ∧
  (∃ k s',
     anext Demo.offline body s =
       ([], Yielded (Event "Missing Llama3 Model" "stop") k s') ∧
     anext Demo.offline k s' =
       ([BitsAndBytesConfig true "nf4" true "bfloat16";
         AutoTokenizer_from_pretrained "" "hf_secret"],
        Raised Demo.OSError s')) ∧
  (events (trace (run_agen (Demo.answering "Paris") body s)) =
     [Event "Missing Llama3 Model" "stop"; Event "Paris" ""] ∧
   outcome (run_agen (Demo.answering "Paris") body s) = inr tt).
Proof.
  cbv zeta. split; [|split; [|split]].
  - split; [|by left].
    intros [H|H]; vm_compute in H; discriminate H.
  - split; vm_compute; reflexivity.
  - eexists _, _. split; [reflexivity|]. vm_compute. reflexivity.
  - split; vm_compute; reflexivity.
Qed.

(** C10. With both keys absent or empty the run starts with two events of
    finish_reason "stop", the missing credential first and the missing
    model second, and only then calls the library; no other event of the
    run has finish_reason "stop". *)
Theorem generate_stream_missing_both (b : backend) (s : state)
    (queries context : loc) (conversation : option loc) :
  unset s "HUGGINGFACE_TOKEN" → unset s "LLAMA3_MODEL_ID" →
  let r := run b (generate_stream queries context conversation) s in
  (∃ post,
     trace r =
       AYield (Event "Missing Hugging Face Token" "stop") ::
       AYield (Event "Missing Llama3 Model" "stop") ::
       ACall (BitsAndBytesConfig true "nf4" true "bfloat16") :: post) ∧
  filter is_stop (events (trace r)) =
    [Event "Missing Hugging Face Token" "stop";
     Event "Missing Llama3 Model" "stop"].
Proof.
  intros Htok Hmod. cbv zeta.
  assert (Hcfg : config_events s = [missing_token_event; missing_model_event]).
  { rewrite config_events_token by done. apply unset_default in Hmod.
    fold (model_name_of s) in Hmod. by rewrite decide_True. }
  split.
  - destruct (generate_stream_runs b queries context conversation s)
      as (_ & t & Ht & Hrun).
    destruct (backend_run_head _ _ _ _ Hrun) as (post & -> & _).
    rewrite Ht, Hcfg. by exists post.
  - destruct (generate_stream_events b queries context conversation s)
      as [[-> _]|(answer & -> & _)]; by rewrite Hcfg.
Qed.

Lemma generate_stream_missing_both_witness :
  let r :=
    run Demo.offline (generate_stream Demo.queries Demo.context None)
      (Demo.st ∅) in
  (∃ post,
     trace r =
       AYield (Event "Missing Hugging Face Token" "stop") ::
       AYield (Event "Missing Llama3 Model" "stop") ::
       ACall (BitsAndBytesConfig true "nf4" true "bfloat16") :: post) ∧
  filter is_stop (events (trace r)) =
    [Event "Missing Hugging Face Token" "stop";
     Event "Missing Llama3 Model" "stop"].
Proof.
  apply (generate_stream_missing_both Demo.offline (Demo.st ∅));
    left; reflexivity.
Defined.

(** ** The answer and the failure of the library *)

(** C6. With both keys set, well-formed arguments, a library that builds
    the pipeline and a [pipe] call that returns an answer text, the run
    yields exactly one event, the answer with an empty finish_reason; the
    event is the last action and the generator then returns, with no event
    of finish_reason "stop". *)
Theorem generate_stream_success (b : backend) (s : state)
    (queries context : loc) (conversation : option loc)
    (qs cx : list string) (cv : list ConversationItem)
    (p : handle) (eos eot : Z) (cs : list backend_call)
    (outputs : list generation) (answer : string) :
  ¬ unset s "HUGGINGFACE_TOKEN" → ¬ unset s "LLAMA3_MODEL_ID" →
  strs_at s queries qs → strs_at s context cx → conv_arg s conversation cv →
  constructs b s p eos eot cs →
  b (pipe_call p (assembled (system_message (self s)) cv cx qs) 256
       [eos; eot] true (6 # 10) (9 # 10)) = inr outputs →
  assistant_response_of outputs = inr answer →
  let r := run b (generate_stream queries context conversation) s in
  events (trace r) = [Event answer ""] ∧
  last (trace r) = Some (AYield (Event answer "")) ∧
  outcome r = inr tt.
Proof.
  intros Htok Hmod Hq Hc Hv Hcs Hpipe Hans. cbv zeta.
  destruct (generate_stream_wf_run b queries context conversation s
              qs cx cv p eos eot cs Hq Hc Hv Hcs) as [Ht Ho].
  rewrite Ht, Ho, config_events_valid by done.
  unfold invoke_trace, invoke_outcome, c_pipe. rewrite Hpipe, Hans.
  split; [|split; [|done]].
  - simpl. by rewrite events_app, events_calls.
  - simpl. by rewrite last_app.
Qed.

Lemma generate_stream_success_witness :
  let r :=
    run (Demo.answering "Paris")
      (generate_stream Demo.queries Demo.context None)
      (Demo.st Demo.env_valid) in
  events (trace r) = [Event "Paris" ""] ∧
  last (trace r) = Some (AYield (Event "Paris" "")) ∧
  outcome r = inr tt.
Proof.
  apply (generate_stream_success (Demo.answering "Paris")
           (Demo.st Demo.env_valid) Demo.queries Demo.context None
           ["What is X?"] ["X is a thing."] [] (Handle 4) 128001 128009
           [c_config; c_tokenizer (Demo.st Demo.env_valid);
            c_model (Demo.st Demo.env_valid) (Handle 1);
            c_pipeline (Handle 3) (Handle 2); c_eos (Handle 4);
            c_eot (Handle 4)]
           [ {| generated_text :=
                  assembled "You are Verba." [] ["X is a thing."] ["What is X?"]
                  ++ [VDict "assistant" "Paris"] |} ]).
  - intros [H|H]; vm_compute in H; discriminate H.
  - intros [H|H]; vm_compute in H; discriminate H.
  - exists (OList [VStr "What is X?"]). split; reflexivity.
  - exists (OList [VStr "X is a thing."]). split; reflexivity.
  - reflexivity.
  - exists (Handle 1), (Handle 2), (Handle 3). repeat split; reflexivity.
  - reflexivity.
  - vm_compute. reflexivity.
Defined.

(** The successful run, evaluated: six construction calls, the [pipe] call
    on the assembled messages, the answer. *)
Example generate_stream_success_trace :
  trace (run (Demo.answering "Paris")
           (generate_stream Demo.queries Demo.context None)
           (Demo.st Demo.env_valid)) =
    [ACall (BitsAndBytesConfig true "nf4" true "bfloat16");
     ACall (AutoTokenizer_from_pretrained
              "meta-llama/Meta-Llama-3-8B-Instruct" "hf_secret");
     ACall (AutoModelForCausalLM_from_pretrained
              "meta-llama/Meta-Llama-3-8B-Instruct" "hf_secret" (Handle 1));
     ACall (pipeline "text-generation" (Handle 3) (Handle 2) "float16");
     ACall (tokenizer_eos_token_id (Handle 4));
     ACall (tokenizer_convert_tokens_to_ids (Handle 4) "<|eot_id|>");
     ACall (pipe_call (Handle 4)
              [VDict "system" "You are Verba.";
               VDict "user" "With this provided context: 'X is a thing.' Please answer this query: 'What is X?'"]
              256 [128001; 128009] true (6 # 10) (9 # 10));
     AYield (Event "Paris" "")].
Proof. vm_compute. reflexivity. Qed.

(** C7. Whatever the configuration and the arguments, a call into the
    library that raises ends the run: the call is the last action and was
    made once, and the events of the run are those of the configuration
    checks alone (none when both keys are set). The caller receives that
    very exception, unless it is a [StopIteration] or a
    [StopAsyncIteration]: one of these leaves the body unchanged, and the
    protocol of asynchronous generators hands the caller a [RuntimeError]
    in its place. *)
Theorem backend_exception_propagates (b : backend) (s : state)
    (queries context : loc) (conversation : option loc)
    (c : backend_call) (e : exn) :
  let r := run_agen b (generate_stream queries context conversation) s in
  ACall c ∈ trace r → b c = inl e →
  outcome r = inl (if exn_is_StopIteration e then RuntimeError else e) ∧
  (exn_is_StopIteration e = false → outcome r = inl e) ∧
  (∃ pre, trace r = pre ++ [ACall c] ∧ (ACall c ∉ pre)) ∧
  events (trace r) = config_events s ∧
  (¬ unset s "HUGGINGFACE_TOKEN" → ¬ unset s "LLAMA3_MODEL_ID" →
   events (trace r) = []).
Proof.
  cbv zeta. unfold run_agen. cbn [trace final outcome]. intros Hin Hb.
  destruct (generate_stream_runs b queries context conversation s)
    as (_ & t & Ht & Hrun).
  rewrite Ht in Hin |- *.
  apply elem_of_app in Hin as [Hin|Hin];
    [by apply call_not_in_yields in Hin|].
  destruct (backend_run_failure _ _ _ _ _ _ Hrun Hin Hb)
    as (Ho & pre & -> & Hpre & Hev).
  assert (Hevents :
    events ((AYield <$> config_events s) ++ pre ++ [ACall c]) = config_events s).
  { by rewrite !events_app, events_yields, Hev, app_nil_r. }
  rewrite Ho. cbn [agen_outcome]. unfold delivered.
  split; [done|]. split; [by intros ->|]. split; [|split; [done|]].
  - exists ((AYield <$> config_events s) ++ pre). split.
    + by rewrite app_assoc.
    + intros [Hy|Hp]%elem_of_app; [by apply call_not_in_yields in Hy|done].
  - intros Htok Hmod. by rewrite Hevents, config_events_valid.
Qed.

Lemma backend_exception_propagates_witness :
  let c :=
    pipe_call (Handle 4)
      (assembled "You are Verba." Demo.history ["X is a thing."] ["What is X?"])
      256 [128001; 128009] true (6 # 10) (9 # 10) in
  let s := Demo.st Demo.env_valid in
  let r :=
    run_agen Demo.failing
      (generate_stream Demo.queries Demo.context (Some Demo.conversation)) s in
  outcome r = inl Demo.RuntimeError ∧
  (exn_is_StopIteration Demo.RuntimeError = false →
   outcome r = inl Demo.RuntimeError) ∧
  (∃ pre, trace r = pre ++ [ACall c] ∧ (ACall c ∉ pre)) ∧
  events (trace r) = config_events s ∧
  (¬ unset s "HUGGINGFACE_TOKEN" → ¬ unset s "LLAMA3_MODEL_ID" →
   events (trace r) = []).
Proof.
  apply (backend_exception_propagates Demo.failing (Demo.st Demo.env_valid)
           Demo.queries Demo.context (Some Demo.conversation)
           (pipe_call (Handle 4)
              (assembled "You are Verba." Demo.history ["X is a thing."]
                 ["What is X?"])
              256 [128001; 128009] true (6 # 10) (9 # 10))
           Demo.RuntimeError).
  - apply list_elem_of_In. vm_compute. tauto.
  - reflexivity.
Defined.

(** The claim that every exception of the library reaches the caller
    unchanged fails for [StopIteration]: when the inference call raises it,
    the caller of the generator receives a [RuntimeError]. *)
Lemma backend_stop_iteration_not_propagated :
  let c :=
    pipe_call (Handle 4)
      (assembled "You are Verba." Demo.history ["X is a thing."] ["What is X?"])
      256 [128001; 128009] true (6 # 10) (9 # 10) in
  let r :=
    run_agen Several.exhausted
      (generate_stream Demo.queries Demo.context (Some Demo.conversation))
      (Demo.st Demo.env_valid) in
  ACall c ∈ trace r ∧
  Several.exhausted c = inl StopIteration ∧
  outcome r = inl RuntimeError ∧
  outcome r ≠ inl StopIteration.
Proof.
  cbv zeta. split; [|split; [|split]].
  - apply list_elem_of_In. vm_compute. tauto.
  - reflexivity.
  - vm_compute. reflexivity.
  - intros H. vm_compute in H. discriminate H.
Qed.

(** ** Frame *)

(** C9. Neither [prepare_messages] nor [generate_stream] changes what the
    caller can see: after the run, however it ends, every object that
    existed before (the queries, the context and the conversation among
    them) has the contents it had, and the receiver's name, description,
    requires_env, streamable and context_window are what they were. *)
Theorem methods_do_not_mutate (b : backend) (s : state)
    (queries context conversation : loc) (conversation_opt : option loc) :
  let r1 := run b (prepare_messages queries context conversation) s in
  let r2 := run b (generate_stream queries context conversation_opt) s in
  ((∀ l, is_Some (heap s !! l) → heap (final r1) !! l = heap s !! l) ∧
   name (self (final r1)) = name (self s) ∧
   description (self (final r1)) = description (self s) ∧
   requires_env (self (final r1)) = requires_env (self s) ∧
   streamable (self (final r1)) = streamable (self s) ∧
   context_window (self (final r1)) = context_window (self s)) ∧
  ((∀ l, is_Some (heap s !! l) → heap (final r2) !! l = heap s !! l) ∧
   name (self (final r2)) = name (self s) ∧
   description (self (final r2)) = description (self s) ∧
   requires_env (self (final r2)) = requires_env (self s) ∧
   streamable (self (final r2)) = streamable (self s) ∧
   context_window (self (final r2)) = context_window (self s)).
Proof.
  cbv zeta.
  assert (Hframe : ∀ s', preserves s s' →
    (∀ l, is_Some (heap s !! l) → heap s' !! l = heap s !! l) ∧
    name (self s') = name (self s) ∧
    description (self s') = description (self s) ∧
    requires_env (self s') = requires_env (self s) ∧
    streamable (self s') = streamable (self s) ∧
    context_window (self s') = context_window (self s)).
  { intros s' (-> & _ & Hsub). split; [|done].
    intros l [o Hl]. rewrite Hl. by eapply lookup_weaken. }
  split; apply Hframe.
  - by apply (quiet_prepare_messages b s queries context conversation s),
      preserves_refl.
  - apply generate_stream_runs.
Qed.

(** The frame is not empty: the run of [prepare_messages] adds one object,
    the list it returns, to the three of the caller. *)
Example prepare_messages_allocates :
  let r :=
    run Demo.offline
      (prepare_messages Demo.queries Demo.context Demo.conversation)
      (Demo.st Demo.env_valid) in
  outcome r = inr 4%positive ∧
  heap (final r) !! 4%positive =
    Some (OList [VDict "system" "You are Verba.";
                 VDict "user" "Hello";
                 VDict "assistant" "Hi, how can I help?";
                 VDict "user" "With this provided context: 'X is a thing.' Please answer this query: 'What is X?'"]) ∧
  heap (final r) !! Demo.conversation =
    Some (OList [VMessage "user" "Hello";
                 VMessage "assistant" "Hi, how can I help?"]).
Proof. repeat split; vm_compute; reflexivity. Qed.

(** * Further properties of the code *)

(** ** Events, outcome and calls of an arbitrary run *)

(** How a run of the backend part ends: with a call and an exception, or
    with the answer event and a normal return. *)
Lemma backend_run_last (b : backend) s t o :
  backend_run b s t o →
  (∃ c e, last t = Some (ACall c) ∧ o = inl e) ∨
  (∃ answer, last t = Some (AYield (Event answer "")) ∧ o = inr tt).
Proof.
  destruct 1; destruct_constructs;
    try (left; eexists _, _; split; reflexivity).
  right. eexists. split; reflexivity.
Qed.

Lemma backend_run_nonempty (b : backend) s t o : backend_run b s t o → t ≠ [].
Proof. destruct 1; destruct_constructs; done. Qed.

Lemma last_app_nonempty {A} (l1 l2 : list A) : l2 ≠ [] → last (l1 ++ l2) = last l2.
Proof.
  intros Hne. rewrite last_app. destruct (last l2) eqn:Hl; [done|].
  by apply last_None in Hl.
Qed.

Lemma config_events_length s : (length (config_events s) ≤ 2)%nat.
Proof.
  unfold config_events. rewrite length_app.
  repeat case_decide; simpl; lia.
Qed.

Lemma filter_stop_config s :
  filter is_stop (config_events s) = config_events s.
Proof.
  unfold config_events. by repeat case_decide.
Qed.

(** The keys [__init__] declares in [requires_env] are the keys
    [generate_stream] checks: a run has an event of finish_reason "stop"
    exactly when one of the declared keys is absent or empty, and the "stop"
    events of a run are as many as the declared keys that are unset. *)
Theorem stop_events_iff_required_env_unset (b : backend) (s : state)
    (queries context : loc) (conversation : option loc)
    (base_system_message : string) :
  let r := run b (generate_stream queries context conversation) s in
  let required := requires_env (init base_system_message) in
  (filter is_stop (events (trace r)) = [] ↔
   Forall (λ key, ¬ unset s key) required) ∧
  (Forall (λ key, unset s key) required ↔
   length (filter is_stop (events (trace r))) = 2%nat).
Proof.
  cbv zeta. cbn [requires_env init].
  assert (Hstop :
    filter is_stop
      (events (trace (run b (generate_stream queries context conversation) s)))
    = config_events s).
  { destruct (generate_stream_events b queries context conversation s)
      as [[-> _]|(answer & -> & _)].
    - apply filter_stop_config.
    - rewrite filter_app, filter_stop_config. simpl. apply app_nil_r. }
  rewrite Hstop. unfold config_events.
  rewrite !Forall_cons, Forall_nil, !unset_default.
  fold (access_token_of s) (model_name_of s).
  split; split.
  - repeat case_decide; naive_solver.
  - intros (? & ? & _). by rewrite !decide_False.
  - intros (? & ? & _). by rewrite !decide_True.
  - repeat case_decide; simpl; intros; (done || lia).
Qed.

(** A run ends in one of two ways. It returns exactly when its last action
    is the answer event; when it raises, its last action is a call into the
    library and every event it has yielded is a "stop" event. No run yields
    more than three events. *)
Theorem generate_stream_returns_iff_answered (b : backend) (s : state)
    (queries context : loc) (conversation : option loc) :
  let r := run b (generate_stream queries context conversation) s in
  (outcome r = inr tt ↔
   ∃ answer, last (trace r) = Some (AYield (Event answer ""))) ∧
  (∀ e, outcome r = inl e →
     (∃ c, last (trace r) = Some (ACall c)) ∧
     Forall is_stop (events (trace r))) ∧
  (length (events (trace r)) ≤ 3)%nat.
Proof.
  cbv zeta.
  destruct (generate_stream_runs b queries context conversation s)
    as (_ & t & Ht & Hrun).
  assert (Hlast : last (trace (run b (generate_stream queries context
                                        conversation) s)) = last t).
  { rewrite Ht. eapply last_app_nonempty, backend_run_nonempty, Hrun. }
  assert (Hev := generate_stream_events b queries context conversation s).
  cbv zeta in Hev.
  assert (Hlen := config_events_length s).
  rewrite Hlast.
  destruct (backend_run_last _ _ _ _ Hrun)
    as [(c & e & -> & Ho)|(answer & -> & Ho)]; rewrite Ho in *.
  - split; [|split].
    + split; [done|]. by intros [? [=]].
    + intros e' _. split; [by exists c|].
      destruct Hev as [[-> _]|(? & _ & [=])]. apply config_events_stop.
    + destruct Hev as [[-> _]|(? & _ & [=])]. lia.
  - split; [|split].
    + split; [by exists answer|done].
    + by intros e' [=].
    + destruct Hev as [[_ [? [=]]]|(? & -> & _)].
      rewrite length_app. simpl. lia.
Qed.

(** An inference call in a run of the backend part: the pipeline was
    built, the sampling parameters are the fixed ones, and at most the
    answer follows. *)
Lemma backend_run_inference (b : backend) s t o p msgs n terms ds temp tp :
  backend_run b s t o →
  ACall (pipe_call p msgs n terms ds temp tp) ∈ t →
  ∃ eos eot cs post,
    constructs b s p eos eot cs ∧
    n = 256 ∧ terms = [eos; eot] ∧ ds = true ∧
    temp = (6 # 10)%Q ∧ tp = (9 # 10)%Q ∧
    t = (ACall <$> cs) ++ ACall (pipe_call p msgs n terms ds temp tp) :: post ∧
    (post = [] ∨ ∃ answer, post = [AYield (Event answer "")]).
Proof.
  intros Hrun Hin.
  destruct Hrun as [| | | | | |p0 eos eot cs e Hcs
                    |p0 eos eot cs msgs0 e Hcs Hb
                    |p0 eos eot cs msgs0 outputs e Hcs Hb Hans
                    |p0 eos eot cs msgs0 outputs answer Hcs Hb Hans].
  1-6: by repeat (apply elem_of_cons in Hin as [[=]|Hin]);
         apply elem_of_nil in Hin.
  - destruct Hcs as (? & ? & ? & ? & ? & ? & ? & ? & ? & ->).
    by repeat (apply elem_of_cons in Hin as [[=]|Hin]);
      apply elem_of_nil in Hin.
  - assert (Hcs' := Hcs).
    destruct Hcs' as (? & ? & ? & ? & ? & ? & ? & ? & ? & ->).
    cbn in Hin.
    repeat (apply elem_of_cons in Hin as [Hin|Hin]; [by discriminate Hin|]).
    apply elem_of_cons in Hin as [[= -> -> -> -> -> -> ->]|Hin];
      [|by apply elem_of_nil in Hin].
    exists eos, eot. eexists. exists [].
    split; [exact Hcs|]. do 5 (split; [done|]). split; [done | by left].
  - assert (Hcs' := Hcs).
    destruct Hcs' as (? & ? & ? & ? & ? & ? & ? & ? & ? & ->).
    cbn in Hin.
    repeat (apply elem_of_cons in Hin as [Hin|Hin]; [by discriminate Hin|]).
    apply elem_of_cons in Hin as [[= -> -> -> -> -> -> ->]|Hin];
      [|by apply elem_of_nil in Hin].
    exists eos, eot. eexists. exists [].
    split; [exact Hcs|]. do 5 (split; [done|]). split; [done | by left].
  - assert (Hcs' := Hcs).
    destruct Hcs' as (? & ? & ? & ? & ? & ? & ? & ? & ? & ->).
    cbn in Hin.
    repeat (apply elem_of_cons in Hin as [Hin|Hin]; [by discriminate Hin|]).
    apply elem_of_cons in Hin as [[= -> -> -> -> -> -> ->]|Hin].
    2: { apply elem_of_cons in Hin as [[=]|Hin]. by apply elem_of_nil in Hin. }
    exists eos, eot. eexists. exists [AYield (Event answer "")].
    split; [exact Hcs|]. do 5 (split; [done|]).
    split; [done | right; by eexists].
Qed.

Lemma filter_inference_yields (evs : list GenerationEvent) :
  filter is_inference (AYield <$> evs) = [].
Proof. by induction evs. Qed.

(** Inference happens at most once, and only on a pipeline that was
    built. If [pipe] is called in a run, then all six construction calls
    returned before it, in the order configuration, tokenizer, model,
    pipeline, end-of-sequence id, end-of-turn id; the call carries
    max_new_tokens 256, the two ids as terminators, sampling enabled,
    temperature 0.6 and top_p 0.9; nothing but the answer event follows it;
    and it is the only inference call of the run. *)
Theorem inference_once_after_construction (b : backend) (s : state)
    (queries context : loc) (conversation : option loc)
    (p : handle) (msgs : list pyval) (n : Z) (terms : list Z) (ds : bool)
    (temp tp : Q) :
  let r := run b (generate_stream queries context conversation) s in
  ACall (pipe_call p msgs n terms ds temp tp) ∈ trace r →
  (∃ eos eot cs post,
     constructs b s p eos eot cs ∧
     n = 256 ∧ terms = [eos; eot] ∧ ds = true ∧
     temp = (6 # 10)%Q ∧ tp = (9 # 10)%Q ∧
     trace r =
       (AYield <$> config_events s) ++ (ACall <$> cs) ++
       ACall (pipe_call p msgs n terms ds temp tp) :: post ∧
     (post = [] ∨ ∃ answer, post = [AYield (Event answer "")])) ∧
  length (filter is_inference (trace r)) = 1%nat.
Proof.
  cbv zeta. intros Hin.
  destruct (generate_stream_runs b queries context conversation s)
    as (_ & t & Ht & Hrun).
  rewrite Ht in Hin |- *.
  apply elem_of_app in Hin as [Hin|Hin];
    [by apply call_not_in_yields in Hin|].
  destruct (backend_run_inference _ _ _ _ _ _ _ _ _ _ _ Hrun Hin)
    as (eos & eot & cs & post & Hcs & -> & -> & -> & -> & -> & -> & Hpost).
  split.
  - exists eos, eot, cs, post. by repeat (split; [done|]).
  - rewrite filter_app, filter_inference_yields.
    destruct Hcs as (? & ? & ? & ? & ? & ? & ? & ? & ? & ->).
    by destruct Hpost as [->|[answer ->]].
Qed.

Lemma inference_once_after_construction_witness :
  let r :=
    run (Demo.answering "Paris")
      (generate_stream Demo.queries Demo.context (Some Demo.conversation))
      (Demo.st Demo.env_valid) in
  let c :=
    pipe_call (Handle 4)
      (assembled "You are Verba." Demo.history ["X is a thing."] ["What is X?"])
      256 [128001; 128009] true (6 # 10) (9 # 10) in
  (∃ eos eot cs post,
     constructs (Demo.answering "Paris") (Demo.st Demo.env_valid)
       (Handle 4) eos eot cs ∧
     256 = 256 ∧ [128001; 128009] = [eos; eot] ∧ true = true ∧
     ((6 # 10) = (6 # 10))%type ∧ ((9 # 10) = (9 # 10))%type ∧
     trace r =
       (AYield <$> config_events (Demo.st Demo.env_valid)) ++ (ACall <$> cs) ++
       ACall c :: post ∧
     (post = [] ∨ ∃ answer, post = [AYield (Event answer "")])) ∧
  length (filter is_inference (trace r)) = 1%nat.
Proof.
  apply (inference_once_after_construction (Demo.answering "Paris")
           (Demo.st Demo.env_valid)).
  apply list_elem_of_In. vm_compute. tauto.
Defined.

(** On arguments of the declared shapes and a pipeline that was built, the
    inference call receives the assembled messages: the system message, the
    conversation in order, and the user message with the template; it
    follows the construction calls directly. *)
Theorem inference_receives_assembled_messages (b : backend) (s : state)
    (queries context : loc) (conversation : option loc)
    (qs cx : list string) (cv : list ConversationItem)
    (p : handle) (eos eot : Z) (cs : list backend_call) :
  strs_at s queries qs → strs_at s context cx → conv_arg s conversation cv →
  constructs b s p eos eot cs →
  let r := run b (generate_stream queries context conversation) s in
  ∃ post,
    trace r =
      (AYield <$> config_events s) ++ (ACall <$> cs) ++
      ACall (pipe_call p
               (VDict "system" (system_message (self s)) ::
                ((λ m, VDict (item_type m) (item_content m)) <$> cv) ++
                [VDict "user"
                   ("With this provided context: '" +:+ join " " cx +:+
                    "' Please answer this query: '" +:+ join " " qs +:+ "'")])
               256 [eos; eot] true (6 # 10) (9 # 10)) :: post.
Proof.
  intros Hq Hc Hv Hcs. cbv zeta.
  destruct (generate_stream_wf_run b queries context conversation s
              qs cx cv p eos eot cs Hq Hc Hv Hcs) as [Ht _].
  rewrite Ht. unfold invoke_trace. by eexists.
Qed.

Lemma inference_receives_assembled_messages_witness :
  let r :=
    run Demo.failing
      (generate_stream Demo.queries Demo.context (Some Demo.conversation))
      (Demo.st Demo.env_no_token) in
  ∃ post,
    trace r =
      (AYield <$> config_events (Demo.st Demo.env_no_token)) ++
      (ACall <$>
         [c_config; c_tokenizer (Demo.st Demo.env_no_token);
          c_model (Demo.st Demo.env_no_token) (Handle 1);
          c_pipeline (Handle 3) (Handle 2); c_eos (Handle 4);
          c_eot (Handle 4)]) ++
      ACall (pipe_call (Handle 4)
               (VDict "system" "You are Verba." ::
                ((λ m, VDict (item_type m) (item_content m)) <$> Demo.history) ++
                [VDict "user"
                   ("With this provided context: '" +:+
                    join " " ["X is a thing."] +:+
                    "' Please answer this query: '" +:+
                    join " " ["What is X?"] +:+ "'")])
               256 [128001; 128009] true (6 # 10) (9 # 10)) :: post.
Proof.
  apply (inference_receives_assembled_messages Demo.failing
           (Demo.st Demo.env_no_token) Demo.queries Demo.context
           (Some Demo.conversation)).
  - exists (OList [VStr "What is X?"]). split; reflexivity.
  - exists (OList [VStr "X is a thing."]). split; reflexivity.
  - exists (OList (item_val <$> Demo.history)). split; reflexivity.
  - exists (Handle 1), (Handle 2), (Handle 3). repeat split; reflexivity.
Defined.

(** ** The except clause *)

Lemma run_try_reraise {R : Type} (b : backend) (body : gen R) (s : state) :
  run b (try_except body exn_is_Exception (λ e, Raise e)) s = run b body s.
Proof.
  revert s. induction body as [r|e|ev k IH|c k IH|k IH|s' k IH]; intros s; simpl.
  - done.
  - by destruct (exn_is_Exception e).
  - by rewrite IH.
  - by rewrite IH.
  - apply IH.
  - apply IH.
Qed.

(** [except Exception: raise] is transparent. Wrapping any block in it
    leaves the actions, the final state and the outcome of every run as
    they are, for exceptions derived from [Exception] and for the others
    alike. *)
Theorem except_reraise_transparent {R : Type} (b : backend) (body : gen R)
    (s : state) :
  run b (try_except body exn_is_Exception (λ e, Raise e)) s = run b body s.
Proof.
  revert s. induction body as [r|e|ev k IH|c k IH|k IH|s' k IH]; intros s.
  - reflexivity.
  - simpl. destruct (exn_is_Exception e); reflexivity.
  - simpl. rewrite IH. reflexivity.
  - simpl. rewrite IH. reflexivity.
  - simpl. apply IH.
  - simpl. apply IH.
Qed.

(** ** The environment *)

(** Neither method writes to the process environment: after any run, every
    key has the value it had, so the two keys read again give the same
    result. *)
Theorem methods_do_not_touch_environ (b : backend) (s : state)
    (queries context conversation : loc) (conversation_opt : option loc) :
  let r1 := run b (prepare_messages queries context conversation) s in
  let r2 := run b (generate_stream queries context conversation_opt) s in
  environ (final r1) = environ s ∧ environ (final r2) = environ s ∧
  system_message (self (final r1)) = system_message (self s) ∧
  system_message (self (final r2)) = system_message (self s).
Proof.
  cbv zeta.
  destruct (quiet_prepare_messages b s queries context conversation s
              (preserves_refl s)) as (_ & (Hself1 & Henv1 & _) & _).
  destruct (generate_stream_runs b queries context conversation_opt s)
    as ((Hself2 & Henv2 & _) & _).
  by rewrite Hself1, Hself2.
Qed.

(** ** The template *)

Lemma string_append_assoc (x y z : string) :
  (x +:+ y) +:+ z = x +:+ (y +:+ z).
Proof.
  induction x as [|a x IH]; [done|].
  change (String a ((x +:+ y) +:+ z) = String a (x +:+ (y +:+ z))).
  by f_equal.
Qed.

Lemma string_append_self (x t : string) : x +:+ t = x → t = "".
Proof.
  induction x as [|a x IH]; [done|].
  change (String a (x +:+ t) = String a x → t = ""). intros [= H]. auto.
Qed.

(** The template does not escape quotes: a context that contains the text
    between the two slots and a query that contains it are assembled into
    the same prompt, although the two contexts differ; the prompt does not
    determine where the context ends and the query starts. *)
Theorem user_prompt_ambiguous (x y z : string) :
  let sep := "' Please answer this query: '" in
  user_prompt (x +:+ sep +:+ y) z = user_prompt x (y +:+ sep +:+ z) ∧
  x +:+ sep +:+ y ≠ x.
Proof.
  cbv zeta. split.
  - unfold user_prompt. by rewrite !string_append_assoc.
  - by intros H%string_append_self.
Qed.

(** ** prepare_messages on arbitrary objects *)

Lemma mapM_as_item_Some items cv :
  mapM as_item items = Some cv → items = item_val <$> cv.
Proof.
  intros H. symmetry. eapply mapM_fmap_Some_inv; [exact H|].
  by intros [] [] [= <- <-].
Qed.

Lemma mapM_as_str_Some items xs :
  mapM as_str items = Some xs → items = VStr <$> xs.
Proof.
  intros H. symmetry. eapply mapM_fmap_Some_inv; [exact H|].
  by intros [] ? [= <-].
Qed.

Lemma run_bind_raises {A B} b (m : gen A) (f : A → gen B) s s' e :
  run b m s = Run [] s' (inl e) → run b (bind m f) s = Run [] s' (inl e).
Proof. intros Hm. by rewrite run_bind, Hm. Qed.

(** The loop on a conversation with an item that lacks the attributes
    raises [AttributeError] at that item. *)
Lemma for_each_bad_item b (l : loc) (items : list pyval) :
  mapM as_item items = None →
  ∀ (s : state) (acc : list pyval),
    heap s !! l = Some (OList acc) →
    ∃ s',
      run b
        (for_each items (λ message,
           let! ty := getattr_type message in
           let! c := getattr_content message in
           list_append l (VDict ty c))) s =
      Run [] s' (inl AttributeError).
Proof.
  induction items as [|v items IH]; intros Hbad s acc Hl; [done|].
  destruct v as [x|ty c|r c]; simpl.
  - by eexists.
  - rewrite Hl. simpl.
    assert (Hrest : mapM as_item items = None).
    { simpl in Hbad. by destruct (mapM as_item items). }
    apply (IH Hrest _ (acc ++ [VDict ty c])). simpl. apply lookup_insert_eq.
  - by eexists.
Qed.

(** The outcome of [prepare_messages] on allocated arguments. *)
Lemma prepare_messages_outcome b s lq lc lv oq oc ov :
  heap s !! lq = Some oq → heap s !! lc = Some oc → heap s !! lv = Some ov →
  trace (run b (prepare_messages lq lc lv) s) = [] ∧
  outcome (run b (prepare_messages lq lc lv) s) =
    match argument_error ov oq oc with
    | Some e => inl e
    | None => inr (fresh_loc (heap s))
    end.
Proof.
  intros Hq Hc Hv. split.
  { by apply (quiet_prepare_messages b s lq lc lv s), preserves_refl. }
  unfold argument_error.
  destruct (mapM as_item (py_iter ov)) as [cv|] eqn:Hcv.
  2: { assert (Hnv := fresh_loc_ne _ _ _ Hv).
       unfold prepare_messages. simpl.
       rewrite lookup_insert_ne, Hv by done. simpl.
       match goal with
       | |- context [run b (bind (for_each _ _) _) ?st] =>
           destruct (for_each_bad_item b (fresh_loc (heap s)) (py_iter ov) Hcv
                       st [VDict "system" (system_message (self s))])
             as [s' Hs']; [simpl; apply lookup_insert_eq|]
       end.
       by erewrite run_bind_raises by exact Hs'. }
  apply mapM_as_item_Some in Hcv.
  assert (Hconv : conv_at s lv cv) by by exists ov.
  destruct (mapM as_str (py_iter oq)) as [qs|] eqn:Hqs.
  2: { assert (Hnq := fresh_loc_ne _ _ _ Hq).
       assert (Hnv := fresh_loc_ne _ _ _ Hv).
       unfold prepare_messages. simpl.
       rewrite lookup_insert_ne, Hv by done. simpl. rewrite Hcv.
       erewrite run_bind_returns; last first.
       { apply for_each_append. simpl. apply lookup_insert_eq. }
       unfold with_heap. simpl.
       rewrite insert_insert_eq, lookup_insert_ne, Hq by done. simpl.
       unfold str_join. by rewrite Hqs. }
  apply mapM_as_str_Some in Hqs.
  destruct (mapM as_str (py_iter oc)) as [cx|] eqn:Hcx.
  2: { assert (Hnq := fresh_loc_ne _ _ _ Hq).
       assert (Hnc := fresh_loc_ne _ _ _ Hc).
       assert (Hnv := fresh_loc_ne _ _ _ Hv).
       unfold prepare_messages. simpl.
       rewrite lookup_insert_ne, Hv by done. simpl. rewrite Hcv.
       erewrite run_bind_returns; last first.
       { apply for_each_append. simpl. apply lookup_insert_eq. }
       unfold with_heap. simpl.
       rewrite insert_insert_eq, lookup_insert_ne, Hq by done. simpl.
       rewrite Hqs.
       erewrite run_bind_returns by apply str_join_returns. simpl.
       rewrite lookup_insert_ne, Hc by done. simpl.
       unfold str_join. by rewrite Hcx. }
  apply mapM_as_str_Some in Hcx.
  rewrite (prepare_messages_returns b s lq lc lv qs cx cv);
    [done | by exists oq | by exists oc | done].
Qed.

(** The errors of [prepare_messages], in the order the code meets them. On
    allocated arguments: a conversation entry without the attributes [type]
    and [content] raises [AttributeError], whatever the queries and the
    context are; otherwise a query that is not a string raises [TypeError];
    otherwise a context entry that is not a string raises [TypeError]; and
    the call returns exactly when all three arguments have the declared
    shapes. *)
Theorem prepare_messages_errors (b : backend) (s : state)
    (queries context conversation : loc) (oq oc ov : pyobj) :
  heap s !! queries = Some oq → heap s !! context = Some oc →
  heap s !! conversation = Some ov →
  let r := run b (prepare_messages queries context conversation) s in
  (mapM as_item (py_iter ov) = None → outcome r = inl AttributeError) ∧
  (is_Some (mapM as_item (py_iter ov)) → mapM as_str (py_iter oq) = None →
   outcome r = inl TypeError) ∧
  (is_Some (mapM as_item (py_iter ov)) → is_Some (mapM as_str (py_iter oq)) →
   mapM as_str (py_iter oc) = None → outcome r = inl TypeError) ∧
  ((∃ l, outcome r = inr l) ↔
   is_Some (mapM as_item (py_iter ov)) ∧ is_Some (mapM as_str (py_iter oq)) ∧
   is_Some (mapM as_str (py_iter oc))).
Proof.
  intros Hq Hc Hv. cbv zeta.
  destruct (prepare_messages_outcome b s _ _ _ _ _ _ Hq Hc Hv) as [_ ->].
  unfold argument_error.
  destruct (mapM as_item (py_iter ov)) as [cv|];
    destruct (mapM as_str (py_iter oq)) as [qs|];
    destruct (mapM as_str (py_iter oc)) as [cx|];
    (split; [|split; [|split; [|split]]]);
    try done; try (by intros [? [=]]); try (by intros _ [? [=]]);
    try (by intros [? [=]] _); try (by eexists);
    try (by intros (_ & _ & [? [=]])); try (by intros (_ & [? [=]] & _));
    try (by intros ([? [=]] & _)); try (by intros [? [=]]).
Qed.

Lemma prepare_messages_errors_witness :
  let r :=
    run Demo.offline
      (prepare_messages Cases.bad_queries Demo.context Cases.bad_conversation)
      (Cases.st ∅) in
  let oq := OList [VStr "What is X?"; VDict "user" "not a string"] in
  let oc := OList [VStr "X is a thing."] in
  let ov := OList [VMessage "user" "Hello"; VStr "Hi"] in
  (mapM as_item (py_iter ov) = None → outcome r = inl AttributeError) ∧
  (is_Some (mapM as_item (py_iter ov)) → mapM as_str (py_iter oq) = None →
   outcome r = inl TypeError) ∧
  (is_Some (mapM as_item (py_iter ov)) → is_Some (mapM as_str (py_iter oq)) →
   mapM as_str (py_iter oc) = None → outcome r = inl TypeError) ∧
  ((∃ l, outcome r = inr l) ↔
   is_Some (mapM as_item (py_iter ov)) ∧ is_Some (mapM as_str (py_iter oq)) ∧
   is_Some (mapM as_str (py_iter oc))).
Proof.
  apply (prepare_messages_errors Demo.offline (Cases.st ∅)
           Cases.bad_queries Demo.context Cases.bad_conversation);
    vm_compute; reflexivity.
Defined.

(** The signature annotates [conversation] as a dict, but a dict that is
    not empty is rejected: iterating it gives its keys, and a key that is
    not a conversation item has no attribute [type]. *)
Theorem prepare_messages_rejects_dict (b : backend) (s : state)
    (queries context conversation : loc) (oq oc : pyobj)
    (key value : pyval) (items : list (pyval * pyval)) :
  heap s !! queries = Some oq → heap s !! context = Some oc →
  heap s !! conversation = Some (ODict ((key, value) :: items)) →
  as_item key = None →
  let r := run b (prepare_messages queries context conversation) s in
  trace r = [] ∧ outcome r = inl AttributeError.
Proof.
  intros Hq Hc Hv Hkey. cbv zeta.
  destruct (prepare_messages_outcome b s _ _ _ _ _ _ Hq Hc Hv) as [-> ->].
  unfold argument_error. simpl. by rewrite Hkey.
Qed.

Lemma prepare_messages_rejects_dict_witness :
  let r :=
    run Demo.offline
      (prepare_messages Demo.queries Demo.context Cases.dict_conversation)
      (Cases.st ∅) in
  trace r = [] ∧ outcome r = inl AttributeError.
Proof.
  apply (prepare_messages_rejects_dict Demo.offline (Cases.st ∅)
           Demo.queries Demo.context Cases.dict_conversation
           (OList [VStr "What is X?"]) (OList [VStr "X is a thing."])
           (VStr "user") (VStr "Hello") []);
    vm_compute; reflexivity.
Defined.

(** Every call builds a list of its own. The list returned is an object
    that did not exist before the call; a second call on the same arguments
    returns a different object with the same contents, and leaves the list
    of the first call as it was. *)
Theorem prepare_messages_builds_new_list (b : backend) (s : state)
    (queries context conversation : loc)
    (qs cx : list string) (cv : list ConversationItem) :
  strs_at s queries qs → strs_at s context cx → conv_at s conversation cv →
  let r1 := run b (prepare_messages queries context conversation) s in
  let r2 := run b (prepare_messages queries context conversation) (final r1) in
  ∃ l1 l2 msgs,
    outcome r1 = inr l1 ∧ outcome r2 = inr l2 ∧
    heap s !! l1 = None ∧ l1 ≠ l2 ∧
    heap (final r1) !! l1 = Some (OList msgs) ∧
    heap (final r2) !! l1 = Some (OList msgs) ∧
    heap (final r2) !! l2 = Some (OList msgs).
Proof.
  intros Hq Hc Hv. cbv zeta.
  rewrite (prepare_messages_returns b s _ _ _ qs cx cv Hq Hc Hv).
  cbn [final outcome trace].
  set (l1 := fresh_loc (heap s)).
  set (msgs := assembled (system_message (self s)) cv cx qs).
  set (s1 := with_heap s (<[l1 := OList msgs]> (heap s))).
  assert (Hs1 : preserves s s1) by apply preserves_alloc.
  assert (Hq1 : strs_at s1 queries qs) by by eapply strs_at_preserves.
  assert (Hc1 : strs_at s1 context cx) by by eapply strs_at_preserves.
  assert (Hv1 : conv_at s1 conversation cv).
  { destruct Hv as (o & Ho & Hi). exists o. split; [|done].
    destruct Hs1 as (_ & _ & Hsub). by eapply lookup_weaken. }
  rewrite (prepare_messages_returns b s1 _ _ _ qs cx cv Hq1 Hc1 Hv1).
  cbn [final outcome trace].
  assert (Hsys : system_message (self s1) = system_message (self s)) by done.
  rewrite Hsys. fold msgs.
  assert (Hl1 : heap s1 !! l1 = Some (OList msgs)) by apply lookup_insert_eq.
  assert (Hne : l1 ≠ fresh_loc (heap s1)) by by eapply fresh_loc_ne.
  exists l1, (fresh_loc (heap s1)), msgs.
  split; [done|]. split; [done|]. split; [apply fresh_loc_None|].
  split; [done|]. split; [done|]. split.
  - simpl. by rewrite lookup_insert_ne.
  - simpl. apply lookup_insert_eq.
Qed.

Lemma prepare_messages_builds_new_list_witness :
  let r1 :=
    run Demo.offline
      (prepare_messages Demo.queries Demo.context Demo.conversation)
      (Demo.st ∅) in
  let r2 :=
    run Demo.offline
      (prepare_messages Demo.queries Demo.context Demo.conversation)
      (final r1) in
  ∃ l1 l2 msgs,
    outcome r1 = inr l1 ∧ outcome r2 = inr l2 ∧
    heap (Demo.st ∅) !! l1 = None ∧ l1 ≠ l2 ∧
    heap (final r1) !! l1 = Some (OList msgs) ∧
    heap (final r2) !! l1 = Some (OList msgs) ∧
    heap (final r2) !! l2 = Some (OList msgs).
Proof.
  apply (prepare_messages_builds_new_list Demo.offline (Demo.st ∅)
           Demo.queries Demo.context Demo.conversation
           ["What is X?"] ["X is a thing."] Demo.history).
  - exists (OList [VStr "What is X?"]). split; reflexivity.
  - exists (OList [VStr "X is a thing."]). split; reflexivity.
  - exists (OList (item_val <$> Demo.history)). split; reflexivity.
Defined.

(** ** Construction and the arguments *)

(** The start of a run of [generate_stream]: the two reads of the
    environment and the two checks. *)
Ltac generate_stream_start :=
  unfold generate_stream, config_events;
  erewrite run_bind_returns by reflexivity;
  rewrite run_guard; cbv zeta;
  erewrite run_bind_returns by reflexivity;
  rewrite run_guard; cbv zeta; cbn [trace final outcome].

(** One construction call whose result is known. *)
Ltac generate_stream_call :=
  rewrite run_call_bind;
  match goal with
  | H : ?b ?c = _ |- context [match ?b ?c' with _ => _ end] =>
      change (b c') with (b c); rewrite H
  end;
  cbv zeta; cbn [trace final outcome].

(** Either a construction call raises, and then the run is the same
    whatever the arguments are and leaves the state as it was; or the
    pipeline is built, and the run continues with [assemble_and_invoke]. *)
Lemma generate_stream_construction (b : backend) (s : state) :
  (∃ t e, t ≠ [] ∧ Forall (λ a, ∃ c, a = ACall c) t ∧
     ∀ queries context conversation,
       run b (generate_stream queries context conversation) s =
       Run ((AYield <$> config_events s) ++ t) s (inl e)) ∨
  (∃ p eos eot cs,
     constructs b s p eos eot cs ∧
     ∀ queries context conversation,
       run b (generate_stream queries context conversation) s =
       (let r :=
          run b (assemble_and_invoke p eos eot queries context conversation) s in
        Run ((AYield <$> config_events s) ++ (ACall <$> cs) ++ trace r)
            (final r) (outcome r))).
Proof.
  destruct (b c_config) as [e|cfg] eqn:H1.
  { left. exists [ACall c_config], e. split; [done|]. split.
    { repeat constructor. by eexists. }
    intros q c v. generate_stream_start. generate_stream_call.
    by rewrite fmap_app, <- app_assoc. }
  destruct (b (c_tokenizer s)) as [e|tk] eqn:H2.
  { left. exists [ACall c_config; ACall (c_tokenizer s)], e.
    split; [done|]. split.
    { repeat constructor; by eexists. }
    intros q c v. generate_stream_start. do 2 generate_stream_call.
    by rewrite fmap_app, <- app_assoc. }
  destruct (b (c_model s cfg)) as [e|m] eqn:H3.
  { left.
    exists [ACall c_config; ACall (c_tokenizer s); ACall (c_model s cfg)], e.
    split; [done|]. split.
    { repeat constructor; by eexists. }
    intros q c v. generate_stream_start. do 3 generate_stream_call.
    by rewrite fmap_app, <- app_assoc. }
  destruct (b (c_pipeline m tk)) as [e|p] eqn:H4.
  { left.
    exists [ACall c_config; ACall (c_tokenizer s); ACall (c_model s cfg);
            ACall (c_pipeline m tk)], e.
    split; [done|]. split.
    { repeat constructor; by eexists. }
    intros q c v. generate_stream_start. do 4 generate_stream_call.
    by rewrite fmap_app, <- app_assoc. }
  destruct (b (c_eos p)) as [e|eos] eqn:H5.
  { left.
    exists [ACall c_config; ACall (c_tokenizer s); ACall (c_model s cfg);
            ACall (c_pipeline m tk); ACall (c_eos p)], e.
    split; [done|]. split.
    { repeat constructor; by eexists. }
    intros q c v. generate_stream_start. do 5 generate_stream_call.
    by rewrite fmap_app, <- app_assoc. }
  destruct (b (c_eot p)) as [e|eot] eqn:H6.
  { left.
    exists [ACall c_config; ACall (c_tokenizer s); ACall (c_model s cfg);
            ACall (c_pipeline m tk); ACall (c_eos p); ACall (c_eot p)], e.
    split; [done|]. split.
    { repeat constructor; by eexists. }
    intros q c v. generate_stream_start. do 6 generate_stream_call.
    by rewrite fmap_app, <- app_assoc. }
  right. exists p, eos, eot.
  exists [c_config; c_tokenizer s; c_model s cfg; c_pipeline m tk; c_eos p;
          c_eot p].
  split; [by apply constructs_intro|].
  intros q c v. generate_stream_start. do 6 generate_stream_call.
  by rewrite fmap_app, <- app_assoc.
Qed.

Lemma run_generate_stream_constructed (b : backend) (s : state) p eos eot cs
    queries context conversation :
  constructs b s p eos eot cs →
  run b (generate_stream queries context conversation) s =
    (let r :=
       run b (assemble_and_invoke p eos eot queries context conversation) s in
     Run ((AYield <$> config_events s) ++ (ACall <$> cs) ++ trace r)
         (final r) (outcome r)).
Proof.
  intros (cfg & tk & m & H1 & H2 & H3 & H4 & H5 & H6 & ->).
  generate_stream_start. do 6 generate_stream_call.
  by rewrite fmap_app, <- app_assoc.
Qed.

(** When the arguments have an error, the part after construction raises
    it without any action. *)
Lemma run_assemble_bad_arguments (b : backend) (s : state) p eos eot
    queries context conversation oq oc ov e :
  heap s !! queries = Some oq → heap s !! context = Some oc →
  conv_object s conversation ov →
  argument_error ov oq oc = Some e →
  trace (run b (assemble_and_invoke p eos eot queries context conversation) s)
    = [] ∧
  outcome (run b (assemble_and_invoke p eos eot queries context conversation) s)
    = inl e.
Proof.
  intros Hq Hc Hv Herr. unfold assemble_and_invoke.
  destruct conversation as [lv|]; simpl in Hv.
  - cbn [bind]. rewrite run_bind.
    destruct (prepare_messages_outcome b s _ _ _ _ _ _ Hq Hc Hv) as [Ht Ho].
    by rewrite Ht, Ho, Herr.
  - subst ov. erewrite run_bind_returns by reflexivity. rewrite run_bind.
    set (s1 := State _ _ _).
    assert (Hq1 : heap s1 !! queries = Some oq).
    { simpl. rewrite lookup_insert_ne; [done|].
      symmetry. by eapply fresh_loc_ne. }
    assert (Hc1 : heap s1 !! context = Some oc).
    { simpl. rewrite lookup_insert_ne; [done|].
      symmetry. by eapply fresh_loc_ne. }
    assert (Hv1 : heap s1 !! fresh_loc (heap s) = Some (ODict []))
      by apply lookup_insert_eq.
    destruct (prepare_messages_outcome b s1 _ _ _ _ _ _ Hq1 Hc1 Hv1) as [Ht Ho].
    by rewrite Ht, Ho, Herr.
Qed.

(** If the pipeline cannot be built, the arguments are never looked at:
    the run is the same for all queries, contexts and conversations, it
    allocates nothing, and it ends with the exception of a construction
    call. *)
Theorem construction_failure_ignores_arguments (b : backend) (s : state)
    (queries context queries' context' : loc)
    (conversation conversation' : option loc) :
  (¬ ∃ p eos eot cs, constructs b s p eos eot cs) →
  let r := run b (generate_stream queries context conversation) s in
  let r' := run b (generate_stream queries' context' conversation') s in
  r = r' ∧ final r = s ∧ ∃ e, outcome r = inl e.
Proof.
  intros Hno. cbv zeta.
  destruct (generate_stream_construction b s)
    as [(t & e & _ & _ & Hrun)|(p & eos & eot & cs & Hcs & _)].
  - rewrite !Hrun. split; [done|]. split; [done|]. by exists e.
  - destruct Hno. by exists p, eos, eot, cs.
Qed.

Lemma construction_failure_ignores_arguments_witness :
  let r :=
    run Demo.offline
      (generate_stream Demo.queries Demo.context (Some Demo.conversation))
      (Demo.st Demo.env_valid) in
  let r' :=
    run Demo.offline
      (generate_stream Cases.bad_queries Cases.bad_queries None)
      (Demo.st Demo.env_valid) in
  r = r' ∧ final r = Demo.st Demo.env_valid ∧ ∃ e, outcome r = inl e.
Proof.
  apply (construction_failure_ignores_arguments Demo.offline
           (Demo.st Demo.env_valid)).
  intros (p & eos & eot & cs & cfg & tk & m & _ & H & _).
  vm_compute in H. discriminate H.
Defined.

(** The arguments are checked only after the model is loaded. When the
    pipeline is built and an argument has the wrong shape, all six
    construction calls have been made when the exception is raised; no
    inference call is made and no event follows the configuration events. *)
Theorem arguments_checked_after_construction (b : backend) (s : state)
    (queries context : loc) (conversation : option loc)
    (oq oc ov : pyobj) (e : exn)
    (p : handle) (eos eot : Z) (cs : list backend_call) :
  constructs b s p eos eot cs →
  heap s !! queries = Some oq → heap s !! context = Some oc →
  conv_object s conversation ov →
  argument_error ov oq oc = Some e →
  let r := run b (generate_stream queries context conversation) s in
  trace r = (AYield <$> config_events s) ++ (ACall <$> cs) ∧
  outcome r = inl e ∧
  length cs = 6%nat ∧
  filter is_inference (trace r) = [].
Proof.
  intros Hcs Hq Hc Hv Herr. cbv zeta.
  rewrite (run_generate_stream_constructed b s p eos eot cs) by done.
  cbv zeta. cbn [trace final outcome].
  destruct (run_assemble_bad_arguments b s p eos eot _ _ _ _ _ _ _
              Hq Hc Hv Herr) as [-> ->].
  rewrite app_nil_r. split; [done|]. split; [done|].
  destruct Hcs as (? & ? & ? & ? & ? & ? & ? & ? & ? & ->).
  split; [done|]. by rewrite filter_app, filter_inference_yields.
Qed.

Lemma arguments_checked_after_construction_witness :
  let s := Cases.st Demo.env_valid in
  let r :=
    run (Demo.answering "Paris")
      (generate_stream Cases.bad_queries Demo.context None) s in
  trace r =
    (AYield <$> config_events s) ++
    (ACall <$>
       [c_config; c_tokenizer s; c_model s (Handle 1);
        c_pipeline (Handle 3) (Handle 2); c_eos (Handle 4); c_eot (Handle 4)]) ∧
  outcome r = inl TypeError ∧
  length [c_config; c_tokenizer s; c_model s (Handle 1);
          c_pipeline (Handle 3) (Handle 2); c_eos (Handle 4);
          c_eot (Handle 4)] = 6%nat ∧
  filter is_inference (trace r) = [].
Proof.
  apply (arguments_checked_after_construction (Demo.answering "Paris")
           (Cases.st Demo.env_valid) Cases.bad_queries Demo.context None
           (OList [VStr "What is X?"; VDict "user" "not a string"])
           (OList [VStr "X is a thing."]) (ODict []) TypeError
           (Handle 4) 128001 128009).
  - exists (Handle 1), (Handle 2), (Handle 3). repeat split; reflexivity.
  - vm_compute. reflexivity.
  - vm_compute. reflexivity.
  - reflexivity.
  - vm_compute. reflexivity.
Defined.

(** ** The output of the pipeline *)

(** A malformed output raises and yields nothing. With arguments of the
    declared shapes and a pipeline that was built: when the inference call
    returns an empty list, or a first generation whose chat is empty, the
    run ends with [IndexError]; when the last entry of that chat is not a
    dict, it ends with [TypeError]. In each case the inference call is the
    last action, and the only events are those of the configuration
    checks. *)
Theorem malformed_output_raises (b : backend) (s : state)
    (queries context : loc) (conversation : option loc)
    (qs cx : list string) (cv : list ConversationItem)
    (p : handle) (eos eot : Z) (cs : list backend_call)
    (outputs : list generation) :
  strs_at s queries qs → strs_at s context cx → conv_arg s conversation cv →
  constructs b s p eos eot cs →
  b (pipe_call p (assembled (system_message (self s)) cv cx qs) 256
       [eos; eot] true (6 # 10) (9 # 10)) = inr outputs →
  let r := run b (generate_stream queries context conversation) s in
  (outputs = [] → outcome r = inl IndexError) ∧
  (∀ g rest, outputs = g :: rest → generated_text g = [] →
     outcome r = inl IndexError) ∧
  (∀ g rest v, outputs = g :: rest → last (generated_text g) = Some v →
     content_of v = None → outcome r = inl TypeError) ∧
  (∀ e, outcome r = inl e →
     events (trace r) = config_events s ∧
     last (trace r) =
       Some (ACall (pipe_call p (assembled (system_message (self s)) cv cx qs)
                      256 [eos; eot] true (6 # 10) (9 # 10)))).
Proof.
  intros Hq Hc Hv Hcs Hpipe. cbv zeta.
  destruct (generate_stream_wf_run b queries context conversation s
              qs cx cv p eos eot cs Hq Hc Hv Hcs) as [Ht Ho].
  rewrite Ht, Ho. unfold invoke_trace, invoke_outcome, c_pipe. rewrite Hpipe.
  split; [|split; [|split]].
  - by intros ->.
  - intros g rest -> Hg. simpl. by rewrite Hg.
  - intros g rest v -> Hlast Hv'. simpl. rewrite Hlast. by destruct v.
  - intros e He.
    destruct (assistant_response_of outputs) as [e'|answer]; [|done].
    split.
    + rewrite !events_app, events_yields, events_calls. simpl.
      apply app_nil_r.
    + by rewrite !last_app.
Qed.

Lemma malformed_output_raises_witness :
  let s := Demo.st Demo.env_valid in
  let r :=
    run Cases.empty_output
      (generate_stream Demo.queries Demo.context None) s in
  let msgs := assembled "You are Verba." [] ["X is a thing."] ["What is X?"] in
  let outputs : list generation := [] in
  (outputs = [] → outcome r = inl IndexError) ∧
  (∀ g rest, outputs = g :: rest → generated_text g = [] →
     outcome r = inl IndexError) ∧
  (∀ g rest v, outputs = g :: rest → last (generated_text g) = Some v →
     content_of v = None → outcome r = inl TypeError) ∧
  (∀ e, outcome r = inl e →
     events (trace r) = config_events s ∧
     last (trace r) =
       Some (ACall (pipe_call (Handle 4) msgs 256 [128001; 128009] true
                      (6 # 10) (9 # 10)))).
Proof.
  cbv zeta.
  apply (malformed_output_raises Cases.empty_output (Demo.st Demo.env_valid)
           Demo.queries Demo.context None
           ["What is X?"] ["X is a thing."] [] (Handle 4) 128001 128009
           [c_config; c_tokenizer (Demo.st Demo.env_valid);
            c_model (Demo.st Demo.env_valid) (Handle 1);
            c_pipeline (Handle 3) (Handle 2); c_eos (Handle 4);
            c_eot (Handle 4)] []).
  - exists (OList [VStr "What is X?"]). split; reflexivity.
  - exists (OList [VStr "X is a thing."]). split; reflexivity.
  - reflexivity.
  - exists (Handle 1), (Handle 2), (Handle 3). repeat split; reflexivity.
  - reflexivity.
Defined.

(** ** The default conversation *)

Lemma argument_error_empty ov ov' oq oc :
  py_iter ov = [] → py_iter ov' = [] →
  argument_error ov oq oc = argument_error ov' oq oc.
Proof. intros H H'. unfold argument_error. by rewrite H, H'. Qed.

Lemma argument_error_None ov oq oc :
  argument_error ov oq oc = None →
  ∃ cv qs cx,
    py_iter ov = item_val <$> cv ∧ py_iter oq = VStr <$> qs ∧
    py_iter oc = VStr <$> cx.
Proof.
  unfold argument_error.
  destruct (mapM as_item (py_iter ov)) as [cv|] eqn:Hcv; [|done].
  destruct (mapM as_str (py_iter oq)) as [qs|] eqn:Hqs; [|done].
  destruct (mapM as_str (py_iter oc)) as [cx|] eqn:Hcx; [|done].
  intros _. exists cv, qs, cx.
  by rewrite (mapM_as_item_Some _ _ Hcv), (mapM_as_str_Some _ _ Hqs),
    (mapM_as_str_Some _ _ Hcx).
Qed.

(** Leaving the conversation out is the same as passing an empty one: for
    the same queries and context, the run with [None] and the run with a
    reference to an empty list or dict have the same actions and end the
    same way, whatever the library does and whether or not the queries and
    the context are well-formed. *)
Theorem none_conversation_is_empty_conversation (b : backend) (s : state)
    (queries context conversation : loc) (oq oc ov : pyobj) :
  heap s !! queries = Some oq → heap s !! context = Some oc →
  heap s !! conversation = Some ov → py_iter ov = [] →
  let r := run b (generate_stream queries context None) s in
  let r' := run b (generate_stream queries context (Some conversation)) s in
  trace r = trace r' ∧ outcome r = outcome r'.
Proof.
  intros Hq Hc Hv Hempty. cbv zeta.
  destruct (generate_stream_construction b s)
    as [(t & e & _ & _ & Hrun)|(p & eos & eot & cs & Hcs & Hrun)].
  { by rewrite !Hrun. }
  destruct (argument_error ov oq oc) as [e|] eqn:Herr.
  - rewrite !Hrun. cbv zeta. cbn [trace final outcome].
    destruct (run_assemble_bad_arguments b s p eos eot queries context
                (Some conversation) oq oc ov e Hq Hc Hv Herr) as [-> ->].
    assert (Herr' : argument_error (ODict []) oq oc = Some e).
    { by rewrite (argument_error_empty _ ov). }
    by destruct (run_assemble_bad_arguments b s p eos eot queries context
                   None oq oc (ODict []) e Hq Hc eq_refl Herr') as [-> ->].
  - destruct (argument_error_None _ _ _ Herr) as (cv & qs & cx & Hcv & Hqs & Hcx).
    assert (cv = []) as ->.
    { rewrite Hempty in Hcv. by destruct cv. }
    assert (Hsq : strs_at s queries qs) by by exists oq.
    assert (Hsc : strs_at s context cx) by by exists oc.
    destruct (generate_stream_wf_run b queries context None s
                qs cx [] p eos eot cs Hsq Hsc eq_refl Hcs) as [-> ->].
    assert (Hsv : conv_arg s (Some conversation) []) by by exists ov.
    by destruct (generate_stream_wf_run b queries context (Some conversation) s
                   qs cx [] p eos eot cs Hsq Hsc Hsv Hcs) as [-> ->].
Qed.

Lemma none_conversation_is_empty_conversation_witness :
  let s := Cases.st Demo.env_valid in
  let r :=
    run (Demo.answering "Paris")
      (generate_stream Demo.queries Demo.context None) s in
  let r' :=
    run (Demo.answering "Paris")
      (generate_stream Demo.queries Demo.context (Some Cases.empty_conversation))
      s in
  trace r = trace r' ∧ outcome r = outcome r'.
Proof.
  apply (none_conversation_is_empty_conversation (Demo.answering "Paris")
           (Cases.st Demo.env_valid) Demo.queries Demo.context
           Cases.empty_conversation
           (OList [VStr "What is X?"]) (OList [VStr "X is a thing."])
           (OList []));
    vm_compute; reflexivity.
Defined.

(** ** What a run reads from the environment *)

Lemma blind_ret {A} (a : A) : env_blind (Ret a).
Proof. by intros b s env. Qed.

Lemma blind_raise {A} e : env_blind (@Raise A e).
Proof. by intros b s env. Qed.

Lemma blind_bind {A B} (m : gen A) (f : A → gen B) :
  env_blind m → (∀ a, env_blind (f a)) → env_blind (bind m f).
Proof.
  intros Hm Hf b s env. cbv zeta. rewrite !run_bind, (Hm b s env).
  cbv zeta. cbn [trace final outcome].
  destruct (outcome (run b m s)) as [e|a]; cbn [trace final outcome]; [done|].
  cbv zeta. rewrite (Hf a b (final (run b m s)) env).
  cbv zeta. by cbn [trace final outcome].
Qed.

Lemma blind_yield ev : env_blind (yield ev).
Proof. by intros b s env. Qed.

Lemma blind_call c : env_blind (call c).
Proof. intros b s env. simpl. by destruct (b c). Qed.

Lemma blind_alloc o : env_blind (alloc o).
Proof. by intros b s env. Qed.

Lemma blind_load l : env_blind (load l).
Proof. intros b s env. simpl. by destruct (heap s !! l). Qed.

Lemma blind_list_append l v : env_blind (list_append l v).
Proof.
  intros b s env. simpl. by destruct (heap s !! l) as [[items|items]|].
Qed.

Lemma blind_str_join sep items : env_blind (str_join sep items).
Proof. intros b s env. unfold str_join. by destruct (mapM as_str items). Qed.

Lemma blind_lift_result {A} (r : result A) : env_blind (lift_result r).
Proof. intros b s env. by destruct r. Qed.

Lemma blind_getattr_type v : env_blind (getattr_type v).
Proof. intros b s env. by destruct v. Qed.

Lemma blind_getattr_content v : env_blind (getattr_content v).
Proof. intros b s env. by destruct v. Qed.

Lemma blind_for_each items body :
  (∀ v, env_blind (body v)) → env_blind (for_each items body).
Proof.
  intros Hbody. induction items as [|v items IH]; simpl.
  - apply blind_ret.
  - apply blind_bind; [apply Hbody | by intros _].
Qed.

Lemma blind_try_reraise {A} (body : gen A) :
  env_blind body → env_blind (try_except body exn_is_Exception (λ e, Raise e)).
Proof. intros Hbody b s env. rewrite !run_try_reraise. apply Hbody. Qed.

Lemma blind_get_state_bind {A} (f : state → gen A) :
  (∀ s env, f (with_environ s env) = f s) → (∀ s, env_blind (f s)) →
  env_blind (bind get_state f).
Proof.
  intros Hf Hblind b s env.
  change (run b (f (with_environ s env)) (with_environ s env) =
          (let r := run b (f s) s in
           Run (trace r) (with_environ (final r) env) (outcome r))).
  rewrite Hf. apply Hblind.
Qed.

(** [prepare_messages] reads the receiver and the store, not the
    environment. *)
Lemma blind_prepare_messages queries context conversation :
  env_blind (prepare_messages queries context conversation).
Proof.
  unfold prepare_messages.
  apply blind_get_state_bind; [done|]. intros s.
  apply blind_bind; [apply blind_alloc|]. intros messages.
  apply blind_bind; [apply blind_load|]. intros conv.
  apply blind_bind.
  { apply blind_for_each. intros v.
    apply blind_bind; [apply blind_getattr_type|]. intros ty.
    apply blind_bind; [apply blind_getattr_content|]. intros c.
    apply blind_list_append. }
  intros _.
  apply blind_bind; [apply blind_load|]. intros qs.
  apply blind_bind; [apply blind_str_join|]. intros query.
  apply blind_bind; [apply blind_load|]. intros cs.
  apply blind_bind; [apply blind_str_join|]. intros user_context.
  apply blind_bind; [apply blind_list_append|]. intros _.
  apply blind_ret.
Qed.

(** The whole generator after its two reads of the environment. *)
Lemma blind_construct_and_invoke (access_token model_name : string)
    (queries context : loc) (conversation : option loc) :
  env_blind
    (construct_and_invoke access_token model_name queries context conversation).
Proof.
  unfold construct_and_invoke.
  apply blind_bind; [apply blind_call|]. intros cfg.
  apply blind_bind; [apply blind_call|]. intros tk.
  apply blind_bind; [apply blind_call|]. intros m.
  apply blind_bind; [apply blind_call|]. intros p.
  apply blind_bind; [apply blind_call|]. intros eos.
  apply blind_bind; [apply blind_call|]. intros eot.
  unfold assemble_and_invoke.
  apply blind_bind.
  { destruct conversation; [apply blind_ret | apply blind_alloc]. }
  intros lv.
  apply blind_bind; [apply blind_prepare_messages|]. intros messages.
  apply blind_try_reraise.
  apply blind_bind; [apply blind_load|]. intros msgs.
  apply blind_bind; [apply blind_call|]. intros outputs.
  apply blind_bind; [apply blind_lift_result|]. intros answer.
  apply blind_yield.
Qed.

Lemma run_generate_stream_checks (b : backend) (s : state)
    queries context conversation :
  run b (generate_stream queries context conversation) s =
    (let r :=
       run b
         (construct_and_invoke (access_token_of s) (model_name_of s)
            queries context conversation) s in
     Run ((AYield <$> config_events s) ++ trace r) (final r) (outcome r)).
Proof.
  generate_stream_start. by rewrite fmap_app, <- app_assoc.
Qed.

(** Of the environment, a run reads the two keys and nothing else, and an
    empty value counts as an absent key. Two environments in which each of
    HUGGINGFACE_TOKEN and LLAMA3_MODEL_ID has the same value, or is absent
    in one and empty in the other, give runs with the same actions, the
    same outcome and the same objects. *)
Theorem environment_read_through_two_keys (b : backend) (s : state)
    (env' : gmap string string)
    (queries context : loc) (conversation : option loc) :
  default "" (env' !! "HUGGINGFACE_TOKEN") =
    default "" (environ s !! "HUGGINGFACE_TOKEN") →
  default "" (env' !! "LLAMA3_MODEL_ID") =
    default "" (environ s !! "LLAMA3_MODEL_ID") →
  let r := run b (generate_stream queries context conversation) s in
  let r' :=
    run b (generate_stream queries context conversation)
      (State (self s) env' (heap s)) in
  trace r' = trace r ∧ outcome r' = outcome r ∧
  heap (final r') = heap (final r) ∧ environ (final r') = env'.
Proof.
  intros Htok Hmod. cbv zeta.
  change (State (self s) env' (heap s)) with (with_environ s env').
  rewrite (run_generate_stream_checks b (with_environ s env')),
    (run_generate_stream_checks b s).
  cbv zeta. cbn [trace final outcome].
  assert (Ha : access_token_of (with_environ s env') = access_token_of s)
    by exact Htok.
  assert (Hm : model_name_of (with_environ s env') = model_name_of s)
    by exact Hmod.
  assert (Hc : config_events (with_environ s env') = config_events s).
  { unfold config_events. by rewrite Ha, Hm. }
  rewrite Ha, Hm, Hc.
  rewrite (blind_construct_and_invoke _ _ _ _ _ b s env').
  cbv zeta. by cbn [trace final outcome].
Qed.

Lemma environment_read_through_two_keys_witness :
  let env' : gmap string string :=
    {[ "HUGGINGFACE_TOKEN" := "";
       "LLAMA3_MODEL_ID" := "meta-llama/Meta-Llama-3-8B-Instruct";
       "OLLAMA_URL" := "http://localhost:11434" ]} in
  let s := Demo.st Demo.env_no_token in
  let r :=
    run (Demo.answering "Paris")
      (generate_stream Demo.queries Demo.context None) s in
  let r' :=
    run (Demo.answering "Paris")
      (generate_stream Demo.queries Demo.context None)
      (State (self s) env' (heap s)) in
  trace r' = trace r ∧ outcome r' = outcome r ∧
  heap (final r') = heap (final r) ∧ environ (final r') = env'.
Proof.
  cbv zeta.
  apply (environment_read_through_two_keys (Demo.answering "Paris")
           (Demo.st Demo.env_no_token)); vm_compute; reflexivity.
Defined.

(** ** Resumptions *)

(** A run is its first resumption followed by the run of what is
    suspended. *)
Lemma run_anext {R} (b : backend) (p : gen R) (s : state) :
  run b p s =
    match anext b p s with
    | (cs, Yielded ev k s') =>
        let r := run b k s' in
        Run ((ACall <$> cs) ++ AYield ev :: trace r) (final r) (outcome r)
    | (cs, Returned a s') => Run (ACall <$> cs) s' (inr a)
    | (cs, Raised e s') => Run (ACall <$> cs) s' (inl e)
    end.
Proof.
  revert s. induction p as [r|e|ev k IH|c k IH|k IH|s' k IH]; intros s; simpl.
  - done.
  - done.
  - done.
  - rewrite IH. by destruct (anext b (k (b c)) s) as [cs [ev k' s'|a s'|e s']].
  - apply IH.
  - apply IH.
Qed.

Lemma calls_then_yield_inj (cs cs' : list backend_call) ev ev' t t' :
  (ACall <$> cs) ++ AYield ev :: t = (ACall <$> cs') ++ AYield ev' :: t' →
  cs = cs' ∧ ev = ev' ∧ t = t'.
Proof.
  revert cs'. induction cs as [|c cs IH]; intros [|c' cs']; simpl.
  - by intros [= -> ->].
  - done.
  - done.
  - intros [= -> H]. destruct (IH _ H) as (-> & -> & ->). done.
Qed.

Lemma calls_then_yield_not_calls (cs cs' : list backend_call) ev t :
  (ACall <$> cs) ++ AYield ev :: t ≠ ACall <$> cs'.
Proof.
  revert cs'. induction cs as [|c cs IH]; intros [|c' cs']; simpl; try done.
  intros [= _ H]. by eapply IH.
Qed.

(** The first resumption of a run whose trace has an event after the calls
    [cs]: it makes these calls and stops at that event. *)
Lemma anext_of_trace {R} (b : backend) (p : gen R) (s : state) cs ev t :
  trace (run b p s) = (ACall <$> cs) ++ AYield ev :: t →
  ∃ k s',
    anext b p s = (cs, Yielded ev k s') ∧
    trace (run b k s') = t ∧ outcome (run b k s') = outcome (run b p s) ∧
    final (run b k s') = final (run b p s).
Proof.
  rewrite run_anext.
  destruct (anext b p s) as [cs' [ev' k s'|a s'|e s']]; simpl.
  - intros (-> & -> & <-)%calls_then_yield_inj. by exists k, s'.
  - intros H. symmetry in H. by apply calls_then_yield_not_calls in H.
  - intros H. symmetry in H. by apply calls_then_yield_not_calls in H.
Qed.

(** With a required key missing, the first resumption calls nothing in the
    library: it stops at once at an event of finish_reason "stop". A
    consumer that stops iterating there never causes the model to be
    loaded; the construction starts only when the generator is resumed
    past the configuration events. *)
Theorem first_resumption_with_missing_key (b : backend) (s : state)
    (queries context : loc) (conversation : option loc) :
  unset s "HUGGINGFACE_TOKEN" ∨ unset s "LLAMA3_MODEL_ID" →
  ∃ ev k s',
    anext b (generate_stream queries context conversation) s =
      ([], Yielded ev k s') ∧
    finish_reason ev = "stop" ∧
    (message ev = "Missing Hugging Face Token" ∨
     message ev = "Missing Llama3 Model") ∧
    ∃ c, ACall c ∈ trace (run b k s').
Proof.
  intros Hunset.
  destruct (generate_stream_runs b queries context conversation s)
    as (_ & t & Ht & Hrun).
  destruct (backend_run_head _ _ _ _ Hrun) as (post & -> & _).
  assert (Hcfg : ∃ ev evs,
    config_events s = ev :: evs ∧ finish_reason ev = "stop" ∧
    (message ev = "Missing Hugging Face Token" ∨
     message ev = "Missing Llama3 Model")).
  { unfold config_events. destruct Hunset as [H|H].
    - apply unset_default in H. fold (access_token_of s) in H.
      rewrite (decide_True _ _ H). eexists _, _.
      split; [reflexivity|]. split; [done | by left].
    - apply unset_default in H. fold (model_name_of s) in H.
      rewrite (decide_True _ _ H). destruct (decide _).
      + eexists _, _. split; [reflexivity|]. split; [done | by left].
      + eexists _, _. split; [reflexivity|]. split; [done | by right]. }
  destruct Hcfg as (ev & evs & Hcfg & Hstop & Hmsg).
  rewrite Hcfg in Ht.
  destruct (anext_of_trace b _ s [] ev _ Ht) as (k & s' & Hnext & Htr & _).
  exists ev, k, s'. split; [done|]. split; [done|]. split; [done|].
  exists c_config. rewrite Htr.
  apply elem_of_app. right. apply list_elem_of_here.
Qed.

Lemma first_resumption_with_missing_key_witness :
  ∃ ev k s',
    anext Demo.offline (generate_stream Demo.queries Demo.context None)
      (Demo.st Demo.env_no_model) =
      ([], Yielded ev k s') ∧
    finish_reason ev = "stop" ∧
    (message ev = "Missing Hugging Face Token" ∨
     message ev = "Missing Llama3 Model") ∧
    ∃ c, ACall c ∈ trace (run Demo.offline k s').
Proof.
  apply (first_resumption_with_missing_key Demo.offline
           (Demo.st Demo.env_no_model)).
  right. left. reflexivity.
Defined.

(** The generator works in one batch. With both keys set, arguments of the
    declared shapes, a pipeline that is built and an inference call that
    returns an answer, the first resumption makes all seven calls into the
    library before it stops at the answer event, and the second resumption
    ends the iteration without any call. *)
Theorem resumptions_of_successful_run (b : backend) (s : state)
    (queries context : loc) (conversation : option loc)
    (qs cx : list string) (cv : list ConversationItem)
    (p : handle) (eos eot : Z) (cs : list backend_call)
    (outputs : list generation) (answer : string) :
  ¬ unset s "HUGGINGFACE_TOKEN" → ¬ unset s "LLAMA3_MODEL_ID" →
  strs_at s queries qs → strs_at s context cx → conv_arg s conversation cv →
  constructs b s p eos eot cs →
  b (pipe_call p (assembled (system_message (self s)) cv cx qs) 256
       [eos; eot] true (6 # 10) (9 # 10)) = inr outputs →
  assistant_response_of outputs = inr answer →
  ∃ k s' s'',
    anext b (generate_stream queries context conversation) s =
      (cs ++ [pipe_call p (assembled (system_message (self s)) cv cx qs) 256
                [eos; eot] true (6 # 10) (9 # 10)],
       Yielded (Event answer "") k s') ∧
    anext b k s' = ([], Returned tt s'').
Proof.
  intros Htok Hmod Hq Hc Hv Hcs Hpipe Hans.
  destruct (generate_stream_wf_run b queries context conversation s
              qs cx cv p eos eot cs Hq Hc Hv Hcs) as [Ht Ho].
  rewrite config_events_valid in Ht by done.
  unfold invoke_trace, invoke_outcome, c_pipe in Ht, Ho.
  rewrite Hpipe, Hans in Ht, Ho.
  assert (Ht' :
    trace (run b (generate_stream queries context conversation) s) =
    (ACall <$> (cs ++ [pipe_call p (assembled (system_message (self s)) cv cx qs)
                         256 [eos; eot] true (6 # 10) (9 # 10)])) ++
    AYield (Event answer "") :: []).
  { rewrite Ht, fmap_app, <- app_assoc. done. }
  destruct (anext_of_trace b _ s _ _ _ Ht') as (k & s' & Hnext & Htr & Hout & _).
  rewrite Ho in Hout. rewrite run_anext in Htr, Hout.
  destruct (anext b k s') as [cs' [ev' k' s''|a s''|e s'']] eqn:Hk;
    simpl in Htr, Hout.
  - by destruct cs'.
  - exists k, s', s''. split; [done|].
    destruct cs'; [|done]. by destruct a.
  - done.
Qed.

Lemma resumptions_of_successful_run_witness :
  ∃ k s' s'',
    anext (Demo.answering "Paris")
      (generate_stream Demo.queries Demo.context None)
      (Demo.st Demo.env_valid) =
      ([c_config; c_tokenizer (Demo.st Demo.env_valid);
        c_model (Demo.st Demo.env_valid) (Handle 1);
        c_pipeline (Handle 3) (Handle 2); c_eos (Handle 4); c_eot (Handle 4)]
       ++ [pipe_call (Handle 4)
             (assembled (system_message (self (Demo.st Demo.env_valid))) []
                ["X is a thing."] ["What is X?"])
             256 [128001; 128009] true (6 # 10) (9 # 10)],
       Yielded (Event "Paris" "") k s') ∧
    anext (Demo.answering "Paris") k s' = ([], Returned tt s'').
Proof.
  apply (resumptions_of_successful_run (Demo.answering "Paris")
           (Demo.st Demo.env_valid) Demo.queries Demo.context None
           ["What is X?"] ["X is a thing."] [] (Handle 4) 128001 128009
           [c_config; c_tokenizer (Demo.st Demo.env_valid);
            c_model (Demo.st Demo.env_valid) (Handle 1);
            c_pipeline (Handle 3) (Handle 2); c_eos (Handle 4);
            c_eot (Handle 4)]
           [ {| generated_text :=
                  assembled "You are Verba." [] ["X is a thing."] ["What is X?"]
                  ++ [VDict "assistant" "Paris"] |} ] "Paris").
  - intros [H|H]; vm_compute in H; discriminate H.
  - intros [H|H]; vm_compute in H; discriminate H.
  - exists (OList [VStr "What is X?"]). split; reflexivity.
  - exists (OList [VStr "X is a thing."]). split; reflexivity.
  - reflexivity.
  - exists (Handle 1), (Handle 2), (Handle 3). repeat split; reflexivity.
  - reflexivity.
  - vm_compute. reflexivity.
Defined.
